(** * Niya front end: multi-message reply orchestration

    A shallow embedding of the chat client's reply pipeline:

    - [JS]: the JavaScript values and string primitives the code relies on;
    - [chatApi]: the Backend Gateway of [lib/api] (response normalisation of
      [sendMessage], the demo branch of [sendMessageMulti], the streaming
      reader of [sendMessageStream]);
    - [App]: the Chat Session Controller of the [WhatsAppChat] component
      ([displayMessageWithTyping], [sendMessageWithMultiResponse],
      [sendMessageFallback], [sendMessage]) as scripts of effects and
      suspension points;
    - [EventLoop]: a timer queue that runs several turns of the controller
      against one shared component state;
    - [Props] and [Scenario]: the predicates of the statements and the
      concrete sessions they are tried on. *)

From Stdlib Require Import ZArith QArith Qround Lia Lqa Ascii String.
From stdpp Require Import gmap strings list pretty.

Set Warnings "-register-all".
#[local] Open Scope Z_scope.

(* ===================================================================== *)
(** ** JavaScript values and string primitives *)
(* ===================================================================== *)

Module JS.

(** What [response.json()] can produce, plus [undefined] for absent
    properties.  Numbers are kept as integers: the code only tests them for
    truthiness or hands them on. *)
Inductive jsval :=
| JUndefined
| JNull
| JBool (b : bool)
| JNum (n : Z)
| JStr (s : string)
| JArr (l : list jsval)
| JObj (o : gmap string jsval).

(** ToBoolean. *)
Definition truthy (v : jsval) : bool :=
  match v with
  | JUndefined | JNull => false
  | JBool b => b
  | JNum n => negb (n =? 0)
  | JStr EmptyString => false
  | JStr (String _ _) => true
  | JArr _ | JObj _ => true
  end.

(** [a || b] on values (the right operand is pure wherever it is used). *)
Definition or_else (a b : jsval) : jsval := if truthy a then a else b.

(** Number of UTF-16 code units a UTF-8 byte contributes: [String.length]
    in JavaScript counts code units, Rocq strings hold bytes. *)
Definition utf16_units (c : ascii) : nat :=
  let n := N_of_ascii c in
  if (n <? 128)%N then 1%nat          (* ASCII *)
  else if (n <? 192)%N then 0%nat     (* continuation byte *)
  else if (n <? 240)%N then 1%nat     (* lead byte of a 2- or 3-byte sequence *)
  else 2%nat.                         (* lead byte of a 4-byte sequence *)

Fixpoint js_length (s : string) : nat :=
  match s with
  | EmptyString => 0%nat
  | String c r => (utf16_units c + js_length r)%nat
  end.

(** [v.k] for a property name [k] that is not an array index.  [None] is the
    TypeError raised when [v] is [undefined] or [null]. *)
Definition prop (v : jsval) (k : string) : option jsval :=
  match v with
  | JUndefined | JNull => None
  | JObj o => Some (default JUndefined (o !! k))
  | JArr l => Some (if String.eqb k "length" then JNum (Z.of_nat (length l)) else JUndefined)
  | JStr s => Some (if String.eqb k "length" then JNum (Z.of_nat (js_length s)) else JUndefined)
  | JBool _ | JNum _ => Some JUndefined
  end.

(** [v?.k]. *)
Definition opt_prop (v : jsval) (k : string) : jsval :=
  default JUndefined (prop v k).

(** [s.startsWith(p)]. *)
Fixpoint startsWith (p s : string) : bool :=
  match p, s with
  | EmptyString, _ => true
  | String a p', String b s' => Ascii.eqb a b && startsWith p' s'
  | String _ _, EmptyString => false
  end.

(** [s.slice(n)] for an ASCII prefix of [n] characters. *)
Fixpoint slice (n : nat) (s : string) : string :=
  match n, s with
  | O, _ => s
  | S n', String _ s' => slice n' s'
  | S _, EmptyString => EmptyString
  end.

(** [s.split('\n')]. *)
Fixpoint split_lines_aux (cur : string) (s : string) : list string :=
  match s with
  | EmptyString => [String.rev cur]
  | String c r =>
      if Ascii.eqb c "010"%char then String.rev cur :: split_lines_aux EmptyString r
      else split_lines_aux (String c cur) r
  end.

Definition split_lines (s : string) : list string := split_lines_aux EmptyString s.

(** One white-space code point at the head of a UTF-8 string, if any:
    WhiteSpace and LineTerminator of ECMAScript (TAB, LF, VT, FF, CR, SP,
    NBSP, U+1680, U+2000..U+200A, U+2028, U+2029, U+202F, U+205F, U+3000,
    U+FEFF).  Returns the rest of the string. *)
Definition strip_space (s : string) : option string :=
  match s with
  | String c r =>
      let n := N_of_ascii c in
      if ((9 <=? n) && (n <=? 13) || (n =? 32))%N then Some r
      else match r with
      | String c1 r1 =>
          let n1 := N_of_ascii c1 in
          if ((n =? 194) && (n1 =? 160))%N then Some r1
          else match r1 with
          | String c2 r2 =>
              let n2 := N_of_ascii c2 in
              if ((n =? 225) && (n1 =? 154) && (n2 =? 128))%N then Some r2
              else if ((n =? 226) && (n1 =? 128)
                       && ((128 <=? n2) && (n2 <=? 138) || (n2 =? 168) || (n2 =? 169) || (n2 =? 175)))%N
                   then Some r2
              else if ((n =? 226) && (n1 =? 129) && (n2 =? 159))%N then Some r2
              else if ((n =? 227) && (n1 =? 128) && (n2 =? 128))%N then Some r2
              else if ((n =? 239) && (n1 =? 187) && (n2 =? 191))%N then Some r2
              else None
          | EmptyString => None
          end
      | EmptyString => None
      end
  | EmptyString => None
  end.

(** [fuel] bounds the number of code points removed; the length of the
    string is always enough. *)
Fixpoint trimStart_aux (fuel : nat) (s : string) : string :=
  match fuel with
  | O => s
  | S f => match strip_space s with
           | Some r => trimStart_aux f r
           | None => s
           end
  end.

Definition trimStart (s : string) : string := trimStart_aux (String.length s) s.

Definition all_space (s : string) : bool :=
  match trimStart s with EmptyString => true | _ => false end.

Fixpoint trimEnd (s : string) : string :=
  match s with
  | EmptyString => EmptyString
  | String c r => if all_space s then EmptyString else String c (trimEnd r)
  end.

(** [s.trim()]. *)
Definition trim (s : string) : string := trimEnd (trimStart s).

End JS.

(* ===================================================================== *)
(** ** Shared types ([lib/types]) *)
(* ===================================================================== *)

Module Types.

Inductive Role := user | assistant.

(** The [Message] interface as the code builds and reads it.  [timestamp]
    is a [Date], kept as milliseconds since the epoch; the five trailing
    fields are the optional multi-message annotations. *)
Record Message := {
  id : string;
  chatId : string;
  userId : string;
  agentId : string;
  content : string;
  role : Role;
  timestamp : Z;
  isMultiMessage : option bool;
  isFirst : option bool;
  isAdditional : option bool;
  messageIndex : option nat;
  totalMessages : option nat
}.

Record Chat := {
  chat_id : string;
  chat_userId : string;
  chat_agentId : string;
  title : string;
  createdAt : Z;
  updatedAt : Z;
  messageCount : nat;
  lastMessage : string
}.

(** What can be thrown on the gateway paths. *)
Inductive error :=
| ApiError (status : Z) (message : string)
| TypeError
| SyntaxError
| NetworkError (message : string).

(** A computation that returns or throws. *)
Inductive outcome (A : Type) :=
| Ok (a : A)
| Throw (e : error).
Arguments Ok {A} a.
Arguments Throw {A} e.

#[export] Instance outcome_ret : MRet outcome := fun _ a => Ok a.
#[export] Instance outcome_bind : MBind outcome := fun _ _ f c =>
  match c with
  | Ok a => f a
  | Throw e => Throw e
  end.

(** [Date.now()] read several times during one call: the [k]-th reading. *)
Definition clock := nat -> Z.

End Types.

(* ===================================================================== *)
(** ** Backend Gateway ([lib/api]) *)
(* ===================================================================== *)

Module chatApi.
Import JS Types.

(** *** [sendMessage]: the real request and the normalisation of its reply *)

(** The object literal [primaryMessage].  It is typed [Message] in the
    source, but [id], [content] and the argument of [new Date(...)] are
    taken from the untyped response, so they stay JavaScript values here. *)
Record RawMessage := {
  raw_id : jsval;
  raw_chatId : string;
  raw_userId : string;
  raw_agentId : string;
  raw_content : jsval;
  raw_role : Role;
  raw_timestamp : jsval
}.

(** The two shapes [sendMessage] returns: the single message, or the
    multi-message object [{isMultiMessage: true, messages, totalMessages,
    primaryMessage}]. *)
Inductive send_result :=
| Single (primaryMessage : RawMessage)
| Multi (messages : list jsval) (totalMessages : nat) (primaryMessage : RawMessage).

(** What [fetch] delivered. *)
Inductive http_response :=
| FetchRejects (message : string)
| Response (ok : bool) (status : Z) (text : string) (json : option jsval).

Definition get (v : jsval) (k : string) : outcome jsval :=
  match prop v k with
  | Some x => Ok x
  | None => Throw TypeError
  end.

(** [msg => typeof msg === 'string' ? msg : msg.content], mapped over the
    array; reading [content] of [null] throws. *)
Fixpoint map_content (l : list jsval) : outcome (list jsval) :=
  match l with
  | [] => Ok []
  | msg :: rest =>
      c ← match msg with
          | JStr _ => Ok msg
          | _ => get msg "content"
          end;
      cs ← map_content rest;
      Ok (c :: cs)
  end.

(** The three mutable locals [isMultiMessage], [messages], [totalMessages]. *)
Record detection := {
  d_isMultiMessage : bool;
  d_messages : list jsval;
  d_totalMessages : nat
}.

(** [if (result.isMultiMessage || result.is_multi_message)]. *)
Definition detect_flag (result : jsval) : outcome detection :=
  f1 ← get result "isMultiMessage";
  f2 ← get result "is_multi_message";
  Ok {| d_isMultiMessage := truthy f1 || truthy f2;
        d_messages := [];
        d_totalMessages := 1 |}.

(** [if (result.messages && Array.isArray(result.messages) &&
    result.messages.length > 1)]. *)
Definition detect_array (result : jsval) (d : detection) : outcome detection :=
  m ← get result "messages";
  match m with
  | JArr l =>
      if (1 <? length l)%nat
      then Ok {| d_isMultiMessage := true; d_messages := l; d_totalMessages := length l |}
      else Ok d
  | _ => Ok d
  end.

(** [if (result.data && result.data.messages &&
    Array.isArray(result.data.messages) && result.data.messages.length > 1)]. *)
Definition detect_nested (result : jsval) (d : detection) : outcome detection :=
  data ← get result "data";
  if truthy data then
    m ← get data "messages";
    match m with
    | JArr l =>
        if (1 <? length l)%nat
        then ms ← map_content l;
             Ok {| d_isMultiMessage := true; d_messages := ms; d_totalMessages := length l |}
        else Ok d
    | _ => Ok d
    end
  else Ok d.

(** [messages.length > 0 ? messages[0] : 'No content']. *)
Definition first_or_placeholder (messages : list jsval) : jsval :=
  match messages with
  | m :: _ => m
  | [] => JStr "No content"
  end.

(** [result.data?.content || result.content || (...)]. *)
Definition primaryContent (result : jsval) (d : detection) : jsval :=
  or_else (or_else (opt_prop (opt_prop result "data") "content") (opt_prop result "content"))
          (first_or_placeholder (d_messages d)).

(** The [id] and the [Date] argument; [Date.now()] is read only when the
    response gives neither, so the second reading may be the first. *)
Definition primaryId (result : jsval) (now : clock) : jsval * nat :=
  let given := or_else (opt_prop (opt_prop result "data") "id") (opt_prop result "id") in
  if truthy given then (given, 0%nat)
  else (JStr ("msg-" +:+ pretty (now 0%nat)), 1%nat).

Definition primaryTimestamp (result : jsval) (now : clock) (reads : nat) : jsval :=
  or_else (or_else (opt_prop (opt_prop result "data") "timestamp") (opt_prop result "timestamp"))
          (JNum (now reads)).

(** From [// Create primary message object] to the two [return]s. *)
Definition respond (chatId agentId : string) (now : clock) (result : jsval)
    (d : detection) : send_result :=
  let '(rid, reads) := primaryId result now in
  let primaryMessage :=
    {| raw_id := rid;
       raw_chatId := chatId;
       raw_userId := "ai";
       raw_agentId := agentId;
       raw_content := primaryContent result d;
       raw_role := assistant;
       raw_timestamp := primaryTimestamp result now reads |} in
  if d_isMultiMessage d && (1 <? length (d_messages d))%nat
  then Multi (d_messages d) (d_totalMessages d) primaryMessage
  else Single primaryMessage.

(** Everything after [const result = await response.json()]. *)
Definition normalize (chatId agentId : string) (now : clock) (result : jsval)
  : outcome send_result :=
  d0 ← detect_flag result;
  d1 ← detect_array result d0;
  d2 ← detect_nested result d1;
  Ok (respond chatId agentId now result d2).

(** [token?.startsWith('demo-token-') || chatId?.startsWith('demo-chat-')];
    [token] is what [localStorage.getItem('authToken')] returned. *)
Definition demo_mode (token : option string) (chatId : string) : bool :=
  match token with
  | Some t => startsWith "demo-token-" t
  | None => false
  end || startsWith "demo-chat-" chatId.

(** The demo branch returns the simulated user message at once. *)
Definition demoUserMessage (chatId content agentId : string) (now : clock) : RawMessage :=
  {| raw_id := JStr ("demo-msg-" +:+ pretty (now 0%nat));
     raw_chatId := chatId;
     raw_userId := "demo-user";
     raw_agentId := agentId;
     raw_content := JStr content;
     raw_role := user;
     raw_timestamp := JNum (now 1%nat) |}.



(** What [sendMessage] resolves to; [response] is what the [fetch] of the
    real request delivers. *)
Definition sendMessage (token : option string) (chatId content agentId : string)
    (now : clock) (response : http_response) : outcome send_result :=
  if demo_mode token chatId then Ok (Single (demoUserMessage chatId content agentId now))
  else
    match response with
    | FetchRejects msg => Throw (NetworkError msg)
    | Response false status text _ =>
        Throw (ApiError status (if truthy (JStr text) then text else "HTTP " +:+ pretty status))
    | Response true _ _ None => Throw SyntaxError
    | Response true _ _ (Some result) => normalize chatId agentId now result
    end.

(** The reply seen as a batch of fragments: the [messages] of the
    multi-message shape, the one [content] of the single shape. *)
Definition fragments (r : send_result) : list jsval :=
  match r with
  | Single m => [raw_content m]
  | Multi ms _ _ => ms
  end.

Definition obj (l : list (string * jsval)) : jsval := JObj (list_to_map l).

(** *** [sendMessageMulti]: the demo branch fabricates the batch *)

Record multi_data := {
  data_isMultiMessage : bool;
  data_totalMessages : nat;
  data_messages : list Message
}.

Record multi_response := {
  success : bool;
  data : multi_data
}.

Definition demoResponses : list string := [
  "That's such an interesting question! I'm really glad you asked me that.";
  "You know, I've been thinking about this topic a lot lately, and I have quite a few thoughts to share.";
  "First, let me tell you what I find most fascinating about this...";
  "And another thing that really excites me is how we can explore this together!";
  "I hope this gives you some good insights to think about! 😊"
].

(** [Math.floor(Math.random() * 3) + 2]; [random] is the value drawn, a
    rational in the interval [0, 1).  The product is taken exactly: its
    rounding to a double can move the floor at a boundary, but not out of
    0..2. *)
Definition numMessages (random : Q) : nat := Z.to_nat (Qfloor (random * 3) + 2).

(** The callback of [selectedResponses.map]: [Date.now()] is read twice per
    element, for the id and for the timestamp. *)
Definition demoMessage (chatId agentId : string) (now : clock) (total : nat)
    (index : nat) (response : string) : Message :=
  {| id := "demo-multi-" +:+ pretty (now (2 * index)%nat) +:+ "-" +:+ pretty index;
     chatId := chatId;
     userId := "ai";
     agentId := agentId;
     content := response;
     role := assistant;
     timestamp := now (2 * index + 1)%nat + Z.of_nat index * 100;
     isMultiMessage := Some true;
     isFirst := Some (index =? 0)%nat;
     isAdditional := Some (0 <? index)%nat;
     messageIndex := Some (index + 1)%nat;
     totalMessages := Some total |}.

Definition demoMulti (chatId agentId : string) (random : Q) (now : clock) : multi_response :=
  let n := numMessages random in
  let selectedResponses := take n demoResponses in
  {| success := true;
     data := {| data_isMultiMessage := true;
                data_totalMessages := n;
                data_messages := imap (demoMessage chatId agentId now n) selectedResponses |} |}.

(** [backend] is what the real request yields through [handleResponse]:
    the typed body, or the error thrown for a failed or unreadable reply. *)
Definition sendMessageMulti (token : option string) (chatId content agentId : string)
    (random : Q) (now : clock) (backend : outcome multi_response) : outcome multi_response :=
  if demo_mode token chatId then Ok (demoMulti chatId agentId random now)
  else backend.

(** *** [sendMessageStream]: the streaming reader *)

(** The argument of [onMessage]: [{type: 'connected'}] or
    [{type: 'message', data}]. *)
Inductive stream_message :=
| Connected
| Fragment (data : jsval).

(** What the caller observes, in order; [Warn] is the [console.warn] of a
    record that could not be read. *)
Inductive stream_event :=
| OnMessage (m : stream_message)
| OnComplete
| OnError (e : jsval)
| Warn (line : string).

(** How the body ends: [reader.read()] reports [done], or rejects. *)
Inductive stream_end :=
| Done
| ReadRejects (message : string).

Inductive stream_response :=
| StreamFetchRejects (message : string)
| NoBody
| Body (chunks : list string) (ending : stream_end).

Section Stream.

(** [JSON.parse]; [None] is its SyntaxError. *)
Variable JSON_parse : string -> option jsval.

(** The body of [for (const line of lines)]: the events of one line, and
    whether the function returned. *)
Definition handle_line (line : string) : list stream_event * bool :=
  if startsWith "data: " line then
    match JSON_parse (slice 6 line) with
    | None => ([Warn line], false)
    | Some data =>
        match prop data "type" with
        | None => ([Warn line], false)
        | Some (JStr "connected") => ([OnMessage Connected], false)
        | Some (JStr "message") => ([OnMessage (Fragment (opt_prop data "data"))], false)
        | Some (JStr "complete") => ([OnComplete], false)
        | Some (JStr "error") => ([OnError (opt_prop data "error")], true)
        | Some _ => ([], false)
        end
    end
  else ([], false).

Fixpoint handle_lines (lines : list string) : list stream_event * bool :=
  match lines with
  | [] => ([], false)
  | line :: rest =>
      let '(evs, returned) := handle_line line in
      if returned then (evs, true)
      else let '(evs', returned') := handle_lines rest in (evs ++ evs', returned')
  end.

(** [while (true) { read; if (done) break; ... }]. *)
Fixpoint read_loop (chunks : list string) (ending : stream_end) : list stream_event :=
  match chunks with
  | [] =>
      match ending with
      | Done => []
      | ReadRejects msg => [OnError (JStr msg)]
      end
  | chunk :: rest =>
      let '(evs, returned) := handle_lines (split_lines chunk) in
      if returned then evs else evs ++ read_loop rest ending
  end.

(** The real-request path of [sendMessageStream]. *)
Definition sendMessageStream (response : stream_response) : list stream_event :=
  match response with
  | StreamFetchRejects msg => [OnError (JStr msg)]
  | NoBody => [OnError (JStr "Streaming not supported")]
  | Body chunks ending => read_loop chunks ending
  end.

End Stream.

Definition demoMessages : list string := [
  "That's such a thoughtful question!";
  "Let me share some ideas with you...";
  "I think you'll find this perspective interesting.";
  "Thanks for giving me the chance to explore this with you! 😊"
].

(** The demo branch of [sendMessageStream], without its pauses:
    [onMessage] for each message, then [onComplete(); return]. *)
Definition demoStream (random : Q) : list stream_event :=
  let messages := take (numMessages random) demoMessages in
  OnMessage Connected
  :: imap (fun i m => OnMessage (Fragment (obj [
        ("content", JStr m);
        ("messageIndex", JNum (Z.of_nat i + 1));
        ("totalMessages", JNum (Z.of_nat (length messages)));
        ("isFirst", JBool (i =? 0)%nat);
        ("isAdditional", JBool (0 <? i)%nat)]))) messages
  ++ [OnComplete].

End chatApi.

(* ===================================================================== *)
(** ** Chat Session Controller (the [WhatsAppChat] component) *)
(* ===================================================================== *)

Module App.
Import JS Types chatApi.

(** The component state behind the [useState] hooks. *)
Record state := {
  message : string;
  messages : list Message;
  currentChat : option Chat;
  isSending : bool;
  isDemoMode : bool;
  user : option string            (* [user?.id] *)
}.

(** State updates.  [append mk] is [setMessages(prev => [...prev, m])],
    where [m] may read the clock when the update is issued. *)
Inductive effect :=
| setMessage (s : string)
| setIsSending (b : bool)
| setIsDemoMode (b : bool)
| append (mk : Z -> Message).

Inductive endpoint := MultiEndpoint | SendEndpoint.

(** What an [async] body does, in order.  [Sleep] and [Call] are the
    suspension points ([await] of a timer, [await] of a gateway call whose
    promise settles after [latency] milliseconds, or never for [None]);
    [Timeout] is a [setTimeout] that is not awaited. *)
Inductive action :=
| Do (e : effect)
| Sleep (ms : Z)
| Call (ep : endpoint) (latency : option Z)
| Timeout (ms : Z) (callback : list effect).

Definition script := list action.

Definition apply_effect (now : Z) (e : effect) (s : state) : state :=
  match e with
  | setMessage m =>
      {| message := m; messages := messages s; currentChat := currentChat s;
         isSending := isSending s; isDemoMode := isDemoMode s; user := user s |}
  | setIsSending b =>
      {| message := message s; messages := messages s; currentChat := currentChat s;
         isSending := b; isDemoMode := isDemoMode s; user := user s |}
  | setIsDemoMode b =>
      {| message := message s; messages := messages s; currentChat := currentChat s;
         isSending := isSending s; isDemoMode := b; user := user s |}
  | append mk =>
      {| message := message s; messages := messages s ++ [mk now]; currentChat := currentChat s;
         isSending := isSending s; isDemoMode := isDemoMode s; user := user s |}
  end.

(** The [options] argument of [displayMessageWithTyping]; an absent
    property reads as [undefined], which is falsy: [no_options] is [{}]. *)
Record options := {
  o_isFirst : bool;
  o_isAdditional : bool
}.

Definition no_options : options := {| o_isFirst := false; o_isAdditional := false |}.

(** [Math.min(message.content.length * 50, 3000)]. *)
Definition typingDelay (m : Message) : Z :=
  Z.min (Z.of_nat (js_length (content m)) * 50) 3000.

Definition displayMessageWithTyping (m : Message) (o : options) : script :=
  (if o_isFirst o then [Do (setIsSending true)] else [])
  ++ [Sleep (typingDelay m)]
  ++ (if o_isFirst o || negb (o_isAdditional o) then [Do (setIsSending false)] else [])
  ++ [Do (append (fun _ => m))].

(** What [chatApi.sendMessage] resolves to, as its TypeScript signature
    gives it to the controller: a [Message], or the multi-message object. *)
Inductive send_reply :=
| ReplyMessage (m : Message)
| ReplyMulti (messages : list string) (totalMessages : nat) (primaryMessage : Message).

(** What the world answers during one turn: the settlement of the two
    gateway calls and the two [Math.random()] draws of the demo reply. *)
Record oracle := {
  multi_latency : option Z;
  multi_reply : outcome multi_response;
  send_latency : option Z;
  send_reply_of : outcome send_reply;
  random_delay : Q;
  random_pick : Q
}.

Definition priyaResponses : list string := [
  "I'm here for you! Tell me more about what's on your mind. I love having these conversations with you.";
  "That sounds really interesting! I'd love to hear more about that. You always have such thoughtful perspectives.";
  "You're so thoughtful! I appreciate you sharing that with me. It means a lot that you trust me with your thoughts.";
  "I'm always here to listen and chat about whatever is important to you. What's been making you happy lately?";
  "Thank you for opening up to me. I enjoy our conversations so much. How are you feeling about everything?";
  "That's such an interesting way to look at it! I really appreciate how you think about things.";
  "I can tell this is important to you. I'm here to listen and support you through whatever you're going through.";
  "You have such a unique perspective on things. I always learn something new when we talk.";
  "I'm so glad you feel comfortable sharing with me. Your thoughts and feelings matter so much.";
  "That resonates with me deeply. How long have you been thinking about this?";
  "I can hear the emotion in your words. It's beautiful how deeply you feel about things.";
  "You're such a caring person. The world needs more people like you who think about these things.";
  "I love how open and honest you are with me. It makes our conversations so meaningful.";
  "That's a really important question. I think about things like that too sometimes.";
  "You always know how to make me think! I really value our conversations and your insights."
].

(** [priyaResponses[Math.floor(Math.random() * priyaResponses.length)]]. *)
Definition getPriyaResponse (random : Q) : string :=
  default EmptyString
    (priyaResponses !! Z.to_nat (Qfloor (random * inject_Z (Z.of_nat (length priyaResponses))))).

Definition getAgentId (expertName : string) : string := "priya".

(** The loop of [sendMessageWithMultiResponse] over [response.data.messages],
    [i] counting from [start]. *)
Fixpoint reveal_from (start : nat) (total : nat) (ms : list Message) : script :=
  match ms with
  | [] => []
  | m :: rest =>
      displayMessageWithTyping m {| o_isFirst := (start =? 0)%nat; o_isAdditional := (0 <? start)%nat |}
      ++ (if (start <? total - 1)%nat then [Sleep 1500] else [])
      ++ reveal_from (S start) total rest
  end.

Definition reveal (ms : list Message) : script := reveal_from 0 (length ms) ms.

(** The timer callback at the end of [sendMessageFallback]. *)
Definition demoReply (chat : Chat) (agentId : string) (o : oracle) : action :=
  Timeout (Qfloor (1500 + random_delay o * 1500))
    [append (fun now =>
       {| id := "ai-demo-" +:+ pretty now;
          chatId := chat_id chat;
          userId := "ai";
          agentId := agentId;
          content := getPriyaResponse (random_pick o);
          role := assistant;
          timestamp := now;
          isMultiMessage := None; isFirst := None; isAdditional := None;
          messageIndex := None; totalMessages := None |})].

(** [isDemoMode] and [currentChat] are the values of the render whose
    handler is running. *)
Definition sendMessageFallback (demo : bool) (chat : Chat) (messageText agentId : string)
    (o : oracle) : script :=
  if negb demo then
    Call SendEndpoint (send_latency o)
    :: match send_reply_of o with
       | Ok (ReplyMessage r) =>
           if truthy (JStr (content r)) then
             [Do (append (fun now =>
                {| id := if truthy (JStr (id r)) then id r else "ai-" +:+ pretty now;
                   chatId := chat_id chat;
                   userId := "ai";
                   agentId := agentId;
                   content := content r;
                   role := assistant;
                   timestamp := timestamp r;
                   isMultiMessage := None; isFirst := None; isAdditional := None;
                   messageIndex := None; totalMessages := None |}))]
           else [demoReply chat agentId o]
       | Ok (ReplyMulti _ _ _) => [demoReply chat agentId o]
       | Throw _ => [Do (setIsDemoMode true); demoReply chat agentId o]
       end
  else [demoReply chat agentId o].

Definition sendMessageWithMultiResponse (demo : bool) (chat : Chat)
    (messageText agentId : string) (o : oracle) : script :=
  Call MultiEndpoint (multi_latency o)
  :: match multi_reply o with
     | Ok response =>
         if success response && data_isMultiMessage (data response)
         then reveal (data_messages (data response))
         else match data_messages (data response) with
              | m :: _ => displayMessageWithTyping m no_options
              | [] => []
              end
     | Throw _ => sendMessageFallback demo chat messageText agentId o
     end.

(** [sendMessage], run by the handler of the render that shows [s]. *)
Definition sendMessage (expertName : string) (s : state) (o : oracle) : script :=
  match trim (message s), currentChat s, isSending s with
  | String _ _ as messageText, Some chat, false =>
      [Do (setMessage EmptyString);
       Do (setIsSending true);
       Do (append (fun now =>
         {| id := "user-" +:+ pretty now;
            chatId := chat_id chat;
            userId := match user s with
                      | Some (String _ _ as uid) => uid
                      | _ => "demo-user"
                      end;
            agentId := getAgentId expertName;
            content := messageText;
            role := Types.user;
            timestamp := now;
            isMultiMessage := None; isFirst := None; isAdditional := None;
            messageIndex := None; totalMessages := None |}))]
      ++ sendMessageWithMultiResponse (isDemoMode s) chat messageText (getAgentId expertName) o
      ++ [Do (setIsSending false)]
  | _, _, _ => []
  end.

End App.

(* ===================================================================== *)
(** ** Running the controller: timelines and the timer queue *)
(* ===================================================================== *)

Module EventLoop.
Import JS Types chatApi App.

(** Time is in milliseconds.  Synchronous code takes no time and a timer
    fires exactly when it is due; tasks due at the same time run in the
    order in which they were queued.  The continuation after an awaited
    gateway call is queued like a timer of the call's latency. *)

(** A timer never fires before its delay; a negative delay counts as 0. *)
Definition delay (ms : Z) : Z := Z.max 0 ms.

(** *** One script running undisturbed *)

(** The state updates of the main line of a script started at time [t],
    each with the time it is issued.  Synchronous code takes no time; a
    call that never settles ends the timeline. *)
Fixpoint timeline (t : Z) (sc : script) : list (Z * effect) :=
  match sc with
  | [] => []
  | Do e :: rest => (t, e) :: timeline t rest
  | Sleep ms :: rest => timeline (t + delay ms) rest
  | Call _ (Some latency) :: rest => timeline (t + delay latency) rest
  | Call _ None :: _ => []
  | Timeout _ _ :: rest => timeline t rest
  end.

(** The time at which the main line returns, if it does. *)
Fixpoint completion (t : Z) (sc : script) : option Z :=
  match sc with
  | [] => Some t
  | Do _ :: rest => completion t rest
  | Sleep ms :: rest => completion (t + delay ms) rest
  | Call _ (Some latency) :: rest => completion (t + delay latency) rest
  | Call _ None :: _ => None
  | Timeout _ _ :: rest => completion t rest
  end.

Definition apply_all (evs : list (Z * effect)) (s : state) : state :=
  fold_left (fun s' te => apply_effect (fst te) (snd te) s') evs s.

(** The component state at each suspension point of the main line, with
    the interval during which the script is suspended there. *)
Fixpoint suspensions (t : Z) (s : state) (sc : script) : list (Z * Z * state) :=
  match sc with
  | [] => []
  | Do e :: rest => suspensions t (apply_effect t e s) rest
  | Sleep ms :: rest => (t, t + delay ms, s) :: suspensions (t + delay ms) s rest
  | Call _ (Some latency) :: rest =>
      (t, t + delay latency, s) :: suspensions (t + delay latency) s rest
  | Call _ None :: _ => []
  | Timeout _ _ :: rest => suspensions t s rest
  end.

(** The times at which the main line appends to the Message Store. *)
Definition append_times (t : Z) (sc : script) : list Z :=
  omap (fun te => match snd te with append _ => Some (fst te) | _ => None end) (timeline t sc).

(** *** Several turns on one timer queue *)

(** What a queued task does when its time comes: resume a suspended
    script, or the user types [text] and presses send, which runs the
    [sendMessage] of the current render. *)
Inductive job :=
| Resume (rest : script)
| Submit (text : string) (o : oracle).

(** [owner] names the turn a task belongs to. *)
Record task := {
  wake : Z;
  owner : nat;
  todo : job
}.

Record event := {
  ev_time : Z;
  ev_owner : nat;
  ev_effect : effect
}.

Record world := {
  now : Z;
  component : state;
  queue : list task;
  trace : list event
}.

(** Tasks are kept by wake time, first come first served among equals. *)
Fixpoint enqueue (tk : task) (q : list task) : list task :=
  match q with
  | [] => [tk]
  | x :: rest => if wake x <=? wake tk then x :: enqueue tk rest else tk :: x :: rest
  end.

(** Run a script until it suspends or ends. *)
Fixpoint run_segment (who : nat) (sc : script) (w : world) : world :=
  match sc with
  | [] => w
  | Do e :: rest =>
      run_segment who rest
        {| now := now w;
           component := apply_effect (now w) e (component w);
           queue := queue w;
           trace := trace w ++ [{| ev_time := now w; ev_owner := who; ev_effect := e |}] |}
  | Sleep ms :: rest =>
      {| now := now w; component := component w;
         queue := enqueue {| wake := now w + delay ms; owner := who; todo := Resume rest |} (queue w);
         trace := trace w |}
  | Call _ (Some latency) :: rest =>
      {| now := now w; component := component w;
         queue := enqueue {| wake := now w + delay latency; owner := who; todo := Resume rest |} (queue w);
         trace := trace w |}
  | Call _ None :: _ => w
  | Timeout ms callback :: rest =>
      run_segment who rest
        {| now := now w; component := component w;
           queue := enqueue {| wake := now w + delay ms; owner := who;
                               todo := Resume (map Do callback) |} (queue w);
           trace := trace w |}
  end.

(** The input box holds what the user typed when send is pressed. *)
Definition typed (text : string) (s : state) : state :=
  {| message := text; messages := messages s; currentChat := currentChat s;
     isSending := isSending s; isDemoMode := isDemoMode s; user := user s |}.

Definition script_of (expertName : string) (j : job) (s : state) : state * script :=
  match j with
  | Resume rest => (s, rest)
  | Submit text o =>
      if isSending s then (s, [])          (* the input and the button are disabled *)
      else (typed text s, sendMessage expertName (typed text s) o)
  end.

(** One turn of the event loop: the earliest task runs to its next
    suspension point. *)
Definition step (expertName : string) (w : world) : option world :=
  match queue w with
  | [] => None
  | tk :: rest =>
      let t := Z.max (now w) (wake tk) in
      let '(s, sc) := script_of expertName (todo tk) (component w) in
      Some (run_segment (owner tk) sc
              {| now := t; component := s; queue := rest; trace := trace w |})
  end.

Fixpoint run (expertName : string) (n : nat) (w : world) : world :=
  match n with
  | O => w
  | S n' => match step expertName w with
            | Some w' => run expertName n' w'
            | None => w
            end
  end.

(** The session once [initializeChat] has finished. *)
Definition ready (chat : Chat) (uid : option string) (demo : bool) (welcome : list Message)
  : state :=
  {| message := EmptyString; messages := welcome; currentChat := Some chat;
     isSending := false; isDemoMode := demo; user := uid |}.

Definition start (s : state) (q : list task) : world :=
  {| now := 0; component := s; queue := fold_right enqueue [] q; trace := [] |}.

(** The turns that appended assistant messages, in store order. *)
Definition fragment_owners (w : world) : list nat :=
  omap (fun ev =>
          match ev_effect ev with
          | append mk => match role (mk (ev_time ev)) with
                         | assistant => Some (ev_owner ev)
                         | Types.user => None
                         end
          | _ => None
          end) (trace w).

End EventLoop.

(* ===================================================================== *)
(** ** Predicates and scenarios used by the statements *)
(* ===================================================================== *)

Module Props.
Import JS Types chatApi App EventLoop.

Definition nullish (v : jsval) : bool :=
  match v with
  | JUndefined | JNull => true
  | _ => false
  end.

(** The responses on which the normalisation reads a property of
    [undefined] or [null]: the body itself, or an element of a nested
    [data.messages] array of more than one element. *)
Definition unreadable (result : jsval) : bool :=
  nullish result
  || (let d := opt_prop result "data" in
      truthy d
      && match opt_prop d "messages" with
         | JArr l => (1 <? length l)%nat && existsb nullish l
         | _ => false
         end).

(** The locals of the normalisation never hold a one-element [messages]. *)
Definition settled (d : detection) : Prop :=
  d_messages d = [] \/ (1 < length (d_messages d))%nat.

(** *** Pacing *)

(** The append times of a batch revealed from time [t]: each fragment
    waits for its own typing delay, and 1500 ms lie between an append and
    the start of the next typing delay. *)
Fixpoint paced (t : Z) (ms : list Message) : list Z :=
  match ms with
  | [] => []
  | m :: rest => (t + typingDelay m) :: paced (t + typingDelay m + 1500) rest
  end.

(** The reading under which consecutive appends are always 1500 ms apart. *)
Definition pause_is_fixed : Prop :=
  forall (ms : list Message) (t : Z) (i : nat) (ti tj : Z),
    append_times t (reveal ms) !! i = Some ti ->
    append_times t (reveal ms) !! S i = Some tj ->
    tj - ti = 1500.

(** *** Demo mode *)

(** The reading under which a turn never changes the demo-mode flag. *)
Definition demo_flag_untouched : Prop :=
  forall (expertName : string) (s : state) (o : oracle) (t : Z),
    isDemoMode (apply_all (timeline t (sendMessage expertName s o)) s) = isDemoMode s.

Definition settles_throwing {A} (latency : option Z) (reply : outcome A) : bool :=
  match latency, reply with
  | Some _, Throw _ => true
  | _, _ => false
  end.

(** The guard of [sendMessage] lets the turn through. *)
Definition accepted (s : state) : bool :=
  match trim (message s), currentChat s, isSending s with
  | String _ _, Some _, false => true
  | _, _, _ => false
  end.

(** Both gateway calls of the turn are made and settle with an error (the
    single-message call is made only outside demo mode). *)
Definition both_calls_fail (s : state) (o : oracle) : bool :=
  accepted s
  && negb (isDemoMode s)
  && settles_throwing (multi_latency o) (multi_reply o)
  && settles_throwing (send_latency o) (send_reply_of o).

(** *** Turns on the shared store *)

Definition builder := (Z -> Message)%type.

(** The messages a script appends, in the order of the script; the
    appends of a timer callback stand where the timer is set. *)
Definition effect_builder (e : effect) : option builder :=
  match e with
  | append mk => Some mk
  | _ => None
  end.

Fixpoint builders (sc : script) : list builder :=
  match sc with
  | [] => []
  | Do e :: rest => from_option (fun mk => [mk]) [] (effect_builder e) ++ builders rest
  | Timeout _ callback :: rest => omap effect_builder callback ++ builders rest
  | Sleep _ :: rest | Call _ _ :: rest => builders rest
  end.

(** Only state updates other than appends: no suspension, no timer. *)
Definition quiet_action (a : action) : bool :=
  match a with
  | Do (append _) => false
  | Do _ => true
  | _ => false
  end.

Definition quiet (sc : script) : bool := forallb quiet_action sc.

(** A script whose timers are set last: after a [Timeout] nothing
    suspends and nothing is appended by the main line. *)
Fixpoint tame (sc : script) : bool :=
  match sc with
  | [] => true
  | Timeout _ _ :: rest => quiet rest
  | _ :: rest => tame rest
  end.

Definition owned (k : nat) (q : list task) : list task :=
  filter (fun tk => owner tk = k) q.

(** What turn [k] appended so far: the time of each append and the
    message builder. *)
Definition appended_by (k : nat) (tr : list event) : list (Z * builder) :=
  omap (fun ev =>
          if decide (ev_owner ev = k)
          then (fun mk => (ev_time ev, mk)) <$> effect_builder (ev_effect ev)
          else None) tr.

Definition built (tb : Z * builder) : Message := snd tb (fst tb).

(** The messages of turn [k] in the store. *)
Definition messages_of (k : nat) (w : world) : list Message :=
  built <$> appended_by k (trace w).

(** No turn resumes appending after another turn has appended. *)
Definition serialized (l : list nat) : Prop :=
  forall a b, a <> b -> ~ [a; b; a] `sublist_of` l.

(** The queue holds nothing but presses of the send button. *)
Definition only_submits (q : list task) : Prop :=
  Forall (fun tk => exists text o, todo tk = Submit text o) q.

Definition turns_never_interleave : Prop :=
  forall (expertName : string) (chat : Chat) (uid : option string) (demo : bool)
         (welcome : list Message) (q : list task) (n : nat),
    only_submits q ->
    serialized (fragment_owners (run expertName n (start (ready chat uid demo welcome) q))).

(** *** Typing indicator *)

Definition is_fragment (a : nat) (ev : event) : bool :=
  bool_decide (ev_owner ev = a)
  && match ev_effect ev with
     | append mk => match role (mk (ev_time ev)) with
                    | assistant => true
                    | Types.user => false
                    end
     | _ => false
     end.

Definition is_raise (ev : event) : bool :=
  match ev_effect ev with
  | setIsSending true => true
  | _ => false
  end.

Fixpoint raise_then_fragment (a : nat) (tr : list event) : bool :=
  match tr with
  | [] => false
  | ev :: rest => is_raise ev && existsb (is_fragment a) rest || raise_then_fragment a rest
  end.

(** Some turn's fragment is followed by [setIsSending(true)] and then by
    another fragment of the same turn. *)
Fixpoint raised_within_batch (tr : list event) : bool :=
  match tr with
  | [] => false
  | ev :: rest =>
      is_fragment (ev_owner ev) ev && raise_then_fragment (ev_owner ev) rest
      || raised_within_batch rest
  end.

Definition indicator_never_raised_again : Prop :=
  forall (expertName : string) (chat : Chat) (uid : option string) (demo : bool)
         (welcome : list Message) (q : list task) (n : nat),
    only_submits q ->
    raised_within_batch (trace (run expertName n (start (ready chat uid demo welcome) q)))
    = false.

Definition not_flag (a : action) : Prop := forall b, a <> Do (setIsSending b).

Definition keeps_demo_flag (a : action) : Prop := forall b, a <> Do (setIsDemoMode b).

Definition sets_no_timer (a : action) : Prop := forall ms cb, a <> Timeout ms cb.

(** Every message appended so far, in store order. *)
Definition appended_all (tr : list event) : list Message :=
  omap (fun ev => (fun mk : builder => mk (ev_time ev)) <$> effect_builder (ev_effect ev)) tr.

(** Where turn [k], submitted with [text] and answered by [o], stands:
    still waiting in the queue; or started, in which case what it has
    appended and what its one remaining task will append make up the
    appends of its [sendMessage] script. *)
Definition turn_inv (expertName : string) (k : nat) (text : string) (o : oracle)
    (w : world) : Prop :=
  (exists tk, owned k (queue w) = [tk] /\ todo tk = Submit text o
              /\ appended_by k (trace w) = [])
  \/ (exists s' rem,
        (appended_by k (trace w)).*2 ++ rem
        = builders (App.sendMessage expertName (typed text s') o)
        /\ (owned k (queue w) = []
            \/ exists tk sc, owned k (queue w) = [tk] /\ todo tk = Resume sc
                             /\ tame sc = true /\ builders sc = rem)).

(** The events of a timeline, as the trace of the event loop records
    them for task [who]. *)
Definition events_of (who : nat) (tl : list (Z * effect)) : list event :=
  (fun te => {| ev_time := te.1; ev_owner := who; ev_effect := te.2 |}) <$> tl.

(** An event at a glance: when, whose, what. *)
Inductive glimpse :=
| Input (s : string)
| Sending (b : bool)
| DemoMode (b : bool)
| Appended (id : string).

Definition glance (ev : event) : Z * nat * glimpse :=
  (ev_time ev, ev_owner ev,
   match ev_effect ev with
   | setMessage s => Input s
   | setIsSending b => Sending b
   | setIsDemoMode b => DemoMode b
   | append mk => Appended (id (mk (ev_time ev)))
   end).


End Props.

(* ===================================================================== *)
(** ** Concrete sessions *)
(* ===================================================================== *)

Module Scenario.
Import JS Types chatApi App EventLoop Props.

Definition demoChat : Chat :=
  {| chat_id := "demo-chat-1"; chat_userId := "u1"; chat_agentId := "priya";
     title := "Chat with Priya"; createdAt := 0; updatedAt := 0;
     messageCount := 0; lastMessage := EmptyString |}.

Definition backendChat : Chat :=
  {| chat_id := "chat-7"; chat_userId := "u1"; chat_agentId := "priya";
     title := "Chat with Priya"; createdAt := 0; updatedAt := 0;
     messageCount := 0; lastMessage := EmptyString |}.

(** A turn submitted at time [t] in the demo chat: the gateway answers at
    once with the Demo Responder's batch of two ([Math.random()] = 0). *)
Definition demoOracle (text : string) (t : Z) : oracle :=
  {| multi_latency := Some 0;
     multi_reply := sendMessageMulti None (chat_id demoChat) text "priya" 0 (fun _ => t)
                      (Throw (NetworkError "unreachable"));
     send_latency := Some 0;
     send_reply_of := Throw (NetworkError "unreachable");
     random_delay := 0;
     random_pick := 0 |}.

(** Turn A at time 0; turn B at 4000 ms, one second after A's first
    fragment has been appended. *)
Definition overlapping : world :=
  start (ready demoChat (Some "u1") false [])
    [ {| wake := 0; owner := 0; todo := Submit "hi" (demoOracle "hi" 0) |};
      {| wake := 4000; owner := 1; todo := Submit "again" (demoOracle "again" 4000) |} ].

(** A backend that is down: both calls are rejected after 20 ms. *)
Definition offline : oracle :=
  {| multi_latency := Some 20;
     multi_reply := Throw (NetworkError "Failed to fetch");
     send_latency := Some 20;
     send_reply_of := Throw (NetworkError "Failed to fetch");
     random_delay := 1 # 2;
     random_pick := 0 |}.

(** A backend that never answers. *)
Definition hung : oracle :=
  {| multi_latency := None;
     multi_reply := Throw (NetworkError "never");
     send_latency := None;
     send_reply_of := Throw (NetworkError "never");
     random_delay := 0;
     random_pick := 0 |}.

Definition fragment (index total : nat) (text : string) : Message :=
  {| id := "m-" +:+ pretty index; chatId := "chat-7"; userId := "ai"; agentId := "priya";
     content := text; role := assistant; timestamp := 0;
     isMultiMessage := Some true; isFirst := Some (index =? 1)%nat;
     isAdditional := Some (1 <? index)%nat;
     messageIndex := Some index; totalMessages := Some total |}.

Definition twoFragments : list Message := [fragment 1 2 "hi"; fragment 2 2 "hello"].

(** JSON texts for the stream examples. *)
Definition dq : string := String (ascii_of_nat 34) EmptyString.

Definition json_text (fields : list (string * string)) : string :=
  "{" +:+ String.concat ","
            (map (fun kv => dq +:+ fst kv +:+ dq +:+ ":" +:+ dq +:+ snd kv +:+ dq) fields)
      +:+ "}".

Definition json_value (fields : list (string * string)) : jsval :=
  obj (map (fun kv => (fst kv, JStr (snd kv))) fields).

Definition record (fields : list (string * string)) : string := "data: " +:+ json_text fields.

Definition known_records : list (list (string * string)) :=
  [ [("type", "connected")];
    [("type", "message"); ("data", "first")];
    [("type", "message"); ("data", "late")];
    [("type", "complete")];
    [("type", "error"); ("error", "boom")] ].

(** [JSON.parse] on the texts above; every other text used in the
    examples is not JSON. *)
Definition parse_examples (text : string) : option jsval :=
  json_value <$> list_find (fun fields => json_text fields = text) known_records ≫= (Some ∘ snd).

Definition lateStream : stream_response :=
  Body [ record [("type", "connected")] +:+ String (ascii_of_nat 10) EmptyString
         +:+ record [("type", "complete")] +:+ String (ascii_of_nat 10) EmptyString
         +:+ record [("type", "message"); ("data", "late")] +:+ String (ascii_of_nat 10) EmptyString ]
       Done.

End Scenario.


(* ===================================================================== *)
(** ** The other operations of the gateway ([lib/api]) *)
(* ===================================================================== *)

Module Backend.
Import JS Types chatApi.

(** What these operations throw. *)
Inductive thrown :=
| HttpError (status : Z) (message : jsval)   (* [new ApiError(status, message)] *)
| PlainError (message : string)              (* [new Error(message)] *)
| PropertyOfNull                             (* the TypeError of [null.message] *)
| BodyUnreadable                             (* [response.json()] rejects *)
| FetchFailed (message : string).            (* [fetch] rejects *)

Inductive result (A : Type) :=
| Returns (a : A)
| Raises (e : thrown).
Arguments Returns {A} a.
Arguments Raises {A} e.

#[export] Instance result_ret : MRet result := fun _ a => Returns a.
#[export] Instance result_bind : MBind result := fun _ _ f c =>
  match c with
  | Returns a => f a
  | Raises e => Raises e
  end.

(** The parsed body of an ok reply, an [ApiResponse<T>] of which only
    [data] is read: JSON [null], whose [data] cannot be read, or a value
    with its [data] ([None] when the property is absent or falsy). *)
Inductive parsed (T : Type) :=
| NullBody
| WithData (data : option T).
Arguments NullBody {T}.
Arguments WithData {T} data.

(** A [Response] as [handleResponse<T>] looks at it.  Not ok: the status
    and what [response.json()] gives for the error body ([None] when it
    rejects).  Ok: what [response.json()] gives ([None] when it rejects). *)
Inductive response (T : Type) :=
| NotOk (status : Z) (errorBody : option jsval)
| IsOk (body : option (parsed T)).
Arguments NotOk {T} status errorBody.
Arguments IsOk {T} body.

Inductive fetched (T : Type) :=
| FetchRejected (message : string)
| Fetched (r : response T).
Arguments FetchRejected {T} message.
Arguments Fetched {T} r.

Definition handleResponse {T} (r : response T) : result (parsed T) :=
  match r with
  | NotOk status errorBody =>
      let errorData := default (obj []) errorBody in       (* [.catch(() => ({}))] *)
      match prop errorData "message" with
      | None => Raises PropertyOfNull
      | Some m =>
          Raises (HttpError status
                    (or_else m (JStr ("HTTP error! status: " +:+ pretty status))))
      end
  | IsOk None => Raises BodyUnreadable
  | IsOk (Some body) => Returns body
  end.

(** [await fetch(...)] followed by [await handleResponse(response)]. *)
Definition request {T} (f : fetched T) : result (parsed T) :=
  match f with
  | FetchRejected msg => Raises (FetchFailed msg)
  | Fetched r => handleResponse r
  end.

(** [result.data]. *)
Definition data_of {T} (body : parsed T) : result (option T) :=
  match body with
  | NullBody => Raises PropertyOfNull
  | WithData data => Returns data
  end.

(** The headers of every real request; [localStorage] is the browser's
    key-value store. *)
Definition getAuthHeaders (localStorage : gmap string string) : gmap string string :=
  match localStorage !! "authToken" with
  | Some (String _ _ as token) =>
      <["Authorization" := "Bearer " +:+ token]> {["Content-Type" := "application/json"]}
  | _ => {["Content-Type" := "application/json"]}
  end.

Definition getChats (f : fetched (list Chat)) : result (list Chat) :=
  body ← request f;
  data ← data_of body;
  Returns (default [] data).

Definition getChat {ChatSession} (f : fetched ChatSession) : result ChatSession :=
  body ← request f;
  data ← data_of body;
  match data with
  | None => Raises (PlainError "Chat not found")
  | Some session => Returns session
  end.

(** The chat the demo branch of [createChat] makes up; [Date.now()] is
    read three times. *)
Definition demoChat (agentId : string) (now : clock) : Chat :=
  {| chat_id := "demo-chat-" +:+ pretty (now 0%nat);
     chat_userId := "demo-user";
     chat_agentId := agentId;
     title := "Chat with " +:+ agentId;
     createdAt := now 1%nat;
     updatedAt := now 2%nat;
     messageCount := 0;
     lastMessage := EmptyString |}.

(** [token] is what [localStorage.getItem('authToken')] returned. *)
Definition createChat (token : option string) (agentId : string) (now : clock)
    (f : fetched Chat) : result Chat :=
  if match token with Some t => startsWith "demo-token-" t | None => false end
  then Returns (demoChat agentId now)
  else
    body ← request f;
    data ← data_of body;
    match data with
    | None => Raises (PlainError "Failed to create chat")
    | Some chat => Returns chat
    end.




(** [updateChatTitle], [deleteChat] and [markAsRead] await the response
    and return nothing; the body is not looked at. *)
Definition acknowledge {T} (f : fetched T) : result unit :=
  _ ← request f;
  Returns tt.

End Backend.

(* ===================================================================== *)
(** ** Session state ([AuthContext]) *)
(* ===================================================================== *)

Module Auth.
Import JS Types.

Record User := {
  user_id : string;
  email : string;
  name : string;
  picture : string;
  user_createdAt : Z;
  lastActive : Z
}.

(** The provider's state, with the browser's [localStorage]. *)
Record auth := {
  auth_user : option User;
  auth_isLoading : bool;
  auth_error : option string;
  localStorage : gmap string string
}.

Section Persistence.

(** [JSON.stringify] on a user, and [JSON.parse] of a stored text back
    into one ([None] is its SyntaxError). *)
Variable JSON_stringify : User -> string.
Variable JSON_parse : string -> option User.

Definition demoUser (now : clock) : User :=
  {| user_id := "demo-user-" +:+ pretty (now 0%nat);
     email := "demo@gurukul.ai";
     name := "Demo User";
     picture := "https://via.placeholder.com/40";
     user_createdAt := now 1%nat;
     lastActive := now 2%nat |}.

Definition demoLogin (now : clock) (a : auth) : auth :=
  {| auth_user := Some (demoUser now);
     auth_isLoading := auth_isLoading a;
     auth_error := auth_error a;
     localStorage :=
       <["authToken" := "demo-token-" +:+ pretty (now 3%nat)]>
         (<["gurukul-user" := JSON_stringify (demoUser now)]> (localStorage a)) |}.

Definition logout (a : auth) : auth :=
  {| auth_user := None;
     auth_isLoading := false;
     auth_error := auth_error a;
     localStorage := delete "gurukul-user" (localStorage a) |}.

(** Run when the provider mounts. *)
Definition checkAuthStatus (a : auth) : auth :=
  match localStorage a !! "gurukul-user" with
  | Some (String _ _ as storedUser) =>
      match JSON_parse storedUser with
      | Some userData =>
          {| auth_user := Some userData; auth_isLoading := false;
             auth_error := auth_error a; localStorage := localStorage a |}
      | None =>
          {| auth_user := auth_user a; auth_isLoading := false;
             auth_error := auth_error a; localStorage := localStorage a |}
      end
  | _ =>
      {| auth_user := auth_user a; auth_isLoading := false;
         auth_error := auth_error a; localStorage := localStorage a |}
  end.

(** A page load without OAuth parameters in the address: the state
    starts from its defaults, the storage stays. *)
Definition reload (a : auth) : auth :=
  checkAuthStatus
    {| auth_user := None; auth_isLoading := true; auth_error := None;
       localStorage := localStorage a |}.

End Persistence.

End Auth.

(* ===================================================================== *)
(** ** Opening the chat ([initializeChat]) *)
(* ===================================================================== *)

Module Session.
Import JS Types chatApi App.

(** The component state with the [isLoading] flag of the loading screen. *)
Record view := {
  st : state;
  isLoading : bool
}.

(** The [useState] defaults of [WhatsAppChat]. *)
Definition initial (uid : option string) : view :=
  {| st := {| message := EmptyString; messages := []; currentChat := None;
              isSending := false; isDemoMode := false; user := uid |};
     isLoading := false |}.

(** The chat made up when [createChat] fails; [now] gives the readings
    of the clock from there on. *)
Definition fallbackChat (uid agentId : string) (now : clock) : Chat :=
  {| chat_id := "demo-chat-" +:+ pretty (now 0%nat);
     chat_userId := uid;
     chat_agentId := agentId;
     title := "Chat with Priya";
     createdAt := now 1%nat;
     updatedAt := now 2%nat;
     messageCount := 0;
     lastMessage := EmptyString |}.

(** [reads] is the number of clock readings made before. *)
Definition welcomeMessage (chat : Chat) (agentId : string) (now : clock) (reads : nat)
  : Message :=
  {| id := "welcome-" +:+ pretty (now reads);
     chatId := chat_id chat;
     userId := "ai";
     agentId := agentId;
     content := "Hello! I'm Priya, your AI companion. I'm here to chat with you about anything on your mind. How are you doing today?";
     role := assistant;
     timestamp := now (S reads);
     isMultiMessage := None; isFirst := None; isAdditional := None;
     messageIndex := None; totalMessages := None |}.

(** The inner [try]/[catch]: the chat the session ends up with, whether
    demo mode was set, and the number of clock readings made. *)
Definition chosenChat (uid agentId : string) (now : clock) (created : Backend.result Chat)
  : Chat * bool * nat :=
  match created with
  | Backend.Returns chat => (chat, false, 0%nat)
  | Backend.Raises _ => (fallbackChat uid agentId now, true, 3%nat)
  end.

(** [created] is how [chatApi.createChat] settles, [None] when it never
    does; [now] gives the readings of the clock once it has settled. *)
Definition initializeChat (expertName : string) (created : option (Backend.result Chat))
    (now : clock) (v : view) : view :=
  match user (st v) with
  | None => v
  | Some uid =>
      match created with
      | None => {| st := st v; isLoading := true |}
      | Some settled =>
          let agentId := getAgentId expertName in
          let '(chat, failed, reads) := chosenChat uid agentId now settled in
          {| st := {| message := message (st v);
                      messages := [welcomeMessage chat agentId now reads];
                      currentChat := Some chat;
                      isSending := isSending (st v);
                      isDemoMode := failed || isDemoMode (st v);
                      user := user (st v) |};
             isLoading := false |}
      end
  end.

End Session.

(* ===================================================================== *)
(** ** The debug panels ([ConnectionTest], [BackendMessageTester]) *)
(* ===================================================================== *)

Module Testers.
Import JS Types chatApi.

(** An entry of [testResults]: [{status: 'success', data}] or
    [{status: 'error', error}]. *)
Inductive test_result :=
| TestSuccess (data : jsval)
| TestError (message : string).

(** The update [runTest] makes when its test settles:
    [setTestResults(prev => ({...prev, [testName]: ...}))]. *)
Definition runTest (testName : string) (settled : test_result)
    (prev : gmap string test_result) : gmap string test_result :=
  <[testName := settled]> prev.

Definition getStatus (testName : string) (testResults : gmap string test_result) : string :=
  match testResults !! testName with
  | None => "pending"
  | Some (TestSuccess _) => "success"
  | Some (TestError _) => "error"
  end.

(** [Run All Tests]: the results are cleared, then the tests settle in
    some order, each with its update. *)
Definition runAll (settling : list (string * test_result)) : gmap string test_result :=
  foldl (fun results test => runTest test.1 test.2 results) ∅ settling.

(** What [testBackendMessage] shows: [{success: true, response,
    hasMultiMessage, messageCount}] or [{success: false, error}]. *)
Inductive report :=
| Passed (response : send_result) (hasMultiMessage : bool) (messageCount : nat)
| Failed (e : error).

(** [testBackendMessage]: [now] is the clock when the token is made,
    [clock] and [response] serve the call of [chatApi.sendMessage]. *)
Definition testBackendMessage (localStorage : gmap string string) (testMessage : string)
    (now : Z) (clock : Types.clock) (response : http_response)
  : gmap string string * report :=
  let stored := <["authToken" := "demo-token-" +:+ pretty now]> localStorage in
  (stored,
   match chatApi.sendMessage (stored !! "authToken") "test-chat-multi-message"
           testMessage "priya" clock response with
   | Ok r =>
       Passed r
         match r with Multi _ _ _ => true | Single _ => false end
         match r with Multi ms _ _ => length ms | Single _ => 1%nat end
   | Throw e => Failed e
   end).

(** [testDemoLogin] and [testMultiMessage] of [ConnectionTest]: each
    stores a demo token and makes one gateway call; [now] is the clock when
    the token is made, the other arguments serve the call. *)
Definition testDemoLogin (localStorage : gmap string string) (now : Z)
    (clock : Types.clock) (f : Backend.fetched Chat)
  : gmap string string * Backend.result Chat :=
  let stored := <["authToken" := "demo-token-" +:+ pretty now]> localStorage in
  (stored, Backend.createChat (stored !! "authToken") "priya" clock f).

Definition testMultiMessage (localStorage : gmap string string) (now : Z)
    (random : Q) (clock : Types.clock) (backend : outcome multi_response)
  : gmap string string * outcome multi_response :=
  let stored := <["authToken" := "demo-token-" +:+ pretty now]> localStorage in
  (stored,
   sendMessageMulti (stored !! "authToken") "demo-chat-123"
     "Tell me about yourself and what you enjoy doing" "priya" random clock backend).

(** The first two statements of [testEndpoint] in [EndpointTester]: the
    token it sends, [localStorage.getItem('authToken') ||
    `demo-token-${Date.now()}`], is written back to the store. *)
Definition endpointToken (localStorage : gmap string string) (now : Z) : string :=
  match localStorage !! "authToken" with
  | Some (String _ _ as token) => token
  | _ => "demo-token-" +:+ pretty now
  end.

Definition testEndpoint_store (localStorage : gmap string string) (now : Z)
  : gmap string string :=
  <["authToken" := endpointToken localStorage now]> localStorage.

End Testers.

(* ===================================================================== *)
(** ** Further predicates *)
(* ===================================================================== *)

Module Facts.
Import JS Types chatApi App EventLoop Props.

(** No [onError] among the events. *)
Definition clean (evs : list stream_event) : Prop := forall e, OnError e ∉ evs.

(** An [onError], if there is one, is the last event. *)
Definition error_is_last (evs : list stream_event) : Prop :=
  forall i e, evs !! i = Some (OnError e) -> S i = length evs.

(** What the end of the body adds when the reader gets there. *)
Definition ending_events (ending : stream_end) : list stream_event :=
  match ending with
  | Done => []
  | ReadRejects msg => [OnError (JStr msg)]
  end.

(** *** Normalisation *)

(** Two response objects that differ at most in the two multi-message
    flags. *)
Definition agree_off_flags (o o' : gmap string jsval) : Prop :=
  forall k, k <> "isMultiMessage" -> k <> "is_multi_message" -> o !! k = o' !! k.

(** The locals of two normalisations hold the same batch, and where the
    batch is not empty both flags are up. *)
Definition same_batch (d d' : detection) : Prop :=
  d_messages d = d_messages d'
  /\ d_totalMessages d = d_totalMessages d'
  /\ (d_messages d = [] \/ (d_isMultiMessage d = true /\ d_isMultiMessage d' = true)).

Definition primaryMessage_of (r : send_result) : RawMessage :=
  match r with
  | Single p => p
  | Multi _ _ p => p
  end.

(** *** Turns *)

(** The messages a timeline appends to the store. *)
Definition appended (tl : list (Z * effect)) : list Message :=
  omap (fun te => match te.2 with append mk => Some (mk te.1) | _ => None end) tl.

(** What the controller reveals of an answered multi-message call. *)
Definition shown (response : multi_response) : list Message :=
  if success response && data_isMultiMessage (data response)
  then data_messages (data response)
  else take 1 (data_messages (data response)).

(** What the turn runs once the multi-message call is answered. *)
Definition revealed (response : multi_response) : script :=
  if success response && data_isMultiMessage (data response)
  then reveal (data_messages (data response))
  else match data_messages (data response) with
       | m :: _ => displayMessageWithTyping m no_options
       | [] => []
       end.

(** The typing delays of a batch, added up. *)
Definition total_typing (ms : list Message) : Z :=
  foldr (fun m acc => typingDelay m + acc) 0 ms.

(** The answer of the single-message call as the fallback can use it:
    [response && response.content]. *)
Definition usable (answer : send_reply) : option Message :=
  match answer with
  | ReplyMessage r => if truthy (JStr (content r)) then Some r else None
  | ReplyMulti _ _ _ => None
  end.

Definition is_call (ep : endpoint) (a : action) : Prop :=
  exists latency, a = Call ep latency.

(** An action that does not lower the demo-mode flag, now or from a timer. *)
Definition never_clears (a : action) : Prop :=
  match a with
  | Do e => e <> setIsDemoMode false
  | Timeout _ callback => setIsDemoMode false ∉ callback
  | Sleep _ | Call _ _ => True
  end.

Definition harmless (tk : task) : Prop :=
  match todo tk with
  | Resume rest => Forall never_clears rest
  | Submit _ _ => True
  end.

(** [Math.random()] gives a value in the interval [0, 1). *)
Definition drawn (random : Q) : Prop := (0 <= random)%Q /\ (random < 1)%Q.


End Facts.

Import JS Types chatApi App EventLoop Props Scenario Facts.

(* ===================================================================== *)
(** ** Gateway normalisation *)
(* ===================================================================== *)

Lemma map_content_spec (l : list jsval) :
  match map_content l with
  | Ok l' => existsb nullish l = false /\ length l' = length l
  | Throw e => existsb nullish l = true /\ e = TypeError
  end.
Proof.
  induction l as [|msg rest IH]; simpl; [done|].
  destruct msg; simpl; try done;
    destruct (map_content rest); simpl; destruct IH as [-> ?]; auto.
Qed.

Lemma respond_fragments chatId agentId now result d :
  settled d -> (1 <= length (fragments (respond chatId agentId now result d)))%nat.
Proof.
  intros Hd. unfold respond. destruct (primaryId result now) as [rid reads].
  destruct (d_isMultiMessage d); simpl; [|lia].
  destruct (1 <? length (d_messages d))%nat eqn:Hl; simpl; [|lia].
  apply Nat.ltb_lt in Hl. lia.
Qed.

Lemma detect_array_settled o d :
  settled d -> exists d', detect_array (JObj o) d = Ok d' /\ settled d'.
Proof.
  intros Hd. unfold detect_array. simpl.
  destruct (default JUndefined (o !! "messages")) as [ | | | | | l | ]; simpl; eauto.
  destruct (1 <? length l)%nat eqn:Hl; eauto.
  eexists; split; [done|]. right. simpl. by apply Nat.ltb_lt.
Qed.

Lemma detect_nested_spec o d :
  settled d ->
  match detect_nested (JObj o) d with
  | Ok d' => unreadable (JObj o) = false /\ settled d'
  | Throw e => unreadable (JObj o) = true /\ e = TypeError
  end.
Proof.
  intros Hd. unfold detect_nested, unreadable, opt_prop. simpl.
  destruct (default JUndefined (o !! "data")) as [ | | b | n | s | l | od ] eqn:Hdata;
    simpl; try done.
  - destruct b; simpl; done.
  - destruct (n =? 0); simpl; done.
  - destruct s; simpl; done.
  - destruct (default JUndefined (od !! "messages")) as [ | | | | | l | ]; simpl; try done.
    destruct (1 <? length l)%nat eqn:Hl; simpl; [|done].
    pose proof (map_content_spec l) as Hmc.
    destruct (map_content l) as [l'|e]; simpl.
    + destruct Hmc as [-> Hlen]. split; [done|]. right. simpl.
      rewrite Hlen. by apply Nat.ltb_lt.
    + by destruct Hmc as [-> ->].
Qed.

Lemma normalize_spec chatId agentId now (result : jsval) :
  match normalize chatId agentId now result with
  | Ok r => unreadable result = false /\ (1 <= length (fragments r))%nat
  | Throw e => unreadable result = true /\ e = TypeError
  end.
Proof.
  unfold normalize.
  destruct result as [ | | b | n | s | l | o ];
    try (simpl; split; [done | apply respond_fragments; by left]); try done.
  unfold detect_flag; simpl.
  edestruct (detect_array_settled o) as (d1 & -> & Hd1); [by left|]. simpl.
  pose proof (detect_nested_spec o d1 Hd1) as Hn.
  destruct (detect_nested (JObj o) d1) as [d2|e]; simpl; [|done].
  destruct Hn as [-> Hd2]. split; [done|]. by apply respond_fragments.
Qed.

(** C4. Normalisation of a successful [sendMessage] response (a real
    request, not the demo branch): [{isMultiMessage: true, messages:
    ["a","b","c"]}] gives the three fragments in order, [{content: "solo"}]
    gives the one fragment "solo", [{}] gives the one fragment "No content"
    and no error, and whenever the normalisation of a parsed body returns,
    the batch has at least one fragment (it throws only on the bodies
    described by [unreadable]). *)
Theorem normalization_never_empty token chatId content agentId now status text :
  demo_mode token chatId = false ->
  (exists r,
      chatApi.sendMessage token chatId content agentId now
        (Response true status text
           (Some (obj [("isMultiMessage", JBool true);
                       ("messages", JArr [JStr "a"; JStr "b"; JStr "c"])]))) = Ok r
      /\ fragments r = [JStr "a"; JStr "b"; JStr "c"])
  /\ (exists r,
      chatApi.sendMessage token chatId content agentId now
        (Response true status text (Some (obj [("content", JStr "solo")]))) = Ok r
      /\ fragments r = [JStr "solo"])
  /\ (exists r,
      chatApi.sendMessage token chatId content agentId now
        (Response true status text (Some (obj []))) = Ok r
      /\ fragments r = [JStr "No content"])
  /\ (forall result,
      match chatApi.sendMessage token chatId content agentId now
              (Response true status text (Some result)) with
      | Ok r => unreadable result = false /\ (1 <= length (fragments r))%nat
      | Throw e => unreadable result = true /\ e = TypeError
      end).
Proof.
  intros Hreal. unfold chatApi.sendMessage. rewrite Hreal. repeat split.
  - eexists; split; [vm_compute; reflexivity | reflexivity].
  - eexists; split; [vm_compute; reflexivity | reflexivity].
  - eexists; split; [vm_compute; reflexivity | reflexivity].
  - intros result. apply normalize_spec.
Qed.

Lemma normalization_never_empty_witness :
  (exists r,
      chatApi.sendMessage None "chat-7" "hi" "priya" (fun _ => 0)
        (Response true 200 EmptyString
           (Some (obj [("isMultiMessage", JBool true);
                       ("messages", JArr [JStr "a"; JStr "b"; JStr "c"])]))) = Ok r
      /\ fragments r = [JStr "a"; JStr "b"; JStr "c"])
  /\ (exists r,
      chatApi.sendMessage None "chat-7" "hi" "priya" (fun _ => 0)
        (Response true 200 EmptyString (Some (obj [("content", JStr "solo")]))) = Ok r
      /\ fragments r = [JStr "solo"])
  /\ (exists r,
      chatApi.sendMessage None "chat-7" "hi" "priya" (fun _ => 0)
        (Response true 200 EmptyString (Some (obj []))) = Ok r
      /\ fragments r = [JStr "No content"])
  /\ (forall result,
      match chatApi.sendMessage None "chat-7" "hi" "priya" (fun _ => 0)
              (Response true 200 EmptyString (Some result)) with
      | Ok r => unreadable result = false /\ (1 <= length (fragments r))%nat
      | Throw e => unreadable result = true /\ e = TypeError
      end).
Proof.
  apply (normalization_never_empty None "chat-7" "hi" "priya" (fun _ => 0) 200 EmptyString).
  reflexivity.
Defined.

(** The demo branch answers with one fragment as well. *)
Lemma demo_send_one_fragment token chatId content agentId now response :
  demo_mode token chatId = true ->
  exists r, chatApi.sendMessage token chatId content agentId now response = Ok r
            /\ fragments r = [JStr content].
Proof.
  intros Hdemo. unfold chatApi.sendMessage. rewrite Hdemo. by eexists.
Qed.

(** C10. A response object whose [messages] is a one-element array, with
    no [content] and no [data] field, is answered with the single message
    whose content is "No content": the element of the array is not read. *)
Theorem single_element_array_discarded chatId agentId now (o : gmap string jsval) (x : jsval) :
  o !! "messages" = Some (JArr [x]) ->
  o !! "content" = None ->
  o !! "data" = None ->
  exists p, normalize chatId agentId now (JObj o) = Ok (Single p)
            /\ raw_content p = JStr "No content".
Proof.
  intros Hm Hc Hd.
  unfold normalize, detect_flag, detect_array, detect_nested, get. simpl.
  rewrite Hm, Hd. simpl.
  unfold respond. destruct (primaryId (JObj o) now) as [rid reads].
  rewrite andb_false_r. eexists; split; [reflexivity|].
  simpl. unfold primaryContent, opt_prop. simpl. rewrite Hd, Hc. reflexivity.
Qed.

Lemma single_element_array_discarded_witness :
  exists p, normalize "c1" "priya" (fun _ => 0) (obj [("messages", JArr [JStr "a"])]) = Ok (Single p)
            /\ raw_content p = JStr "No content".
Proof.
  apply (single_element_array_discarded "c1" "priya" (fun _ => 0)
           (list_to_map [("messages", JArr [JStr "a"])]) (JStr "a"));
    vm_compute; reflexivity.
Defined.

(* ===================================================================== *)
(** ** Demo Responder *)
(* ===================================================================== *)

Lemma numMessages_range (random : Q) :
  (0 <= random)%Q -> (random < 1)%Q ->
  numMessages random = 2%nat \/ numMessages random = 3%nat \/ numMessages random = 4%nat.
Proof.
  intros H0 H1. unfold numMessages.
  assert (Hlo : 0 <= Qfloor (random * 3)).
  { change 0 with (Qfloor 0). apply Qfloor_resp_le.
    apply Qmult_le_0_compat; [done|]. by compute. }
  assert (Hhi : Qfloor (random * 3) < 3).
  { apply Z.lt_nge. intros Hge.
    pose proof (Qfloor_le (random * 3)) as Hfl.
    assert (H3 : (3 <= random * 3)%Q).
    { eapply Qle_trans; [|exact Hfl].
      change 3%Q with (inject_Z 3). rewrite <- Zle_Qle. exact Hge. }
    assert (H4 : (random * 3 < 1 * 3)%Q).
    { apply Qmult_lt_compat_r; [by compute | exact H1]. }
    apply (Qlt_irrefl 3). eapply Qle_lt_trans; [exact H3|].
    eapply Qlt_le_trans; [exact H4|]. by compute. }
  assert (Hc : Qfloor (random * 3) = 0 \/ Qfloor (random * 3) = 1 \/ Qfloor (random * 3) = 2)
    by lia.
  destruct Hc as [-> | [-> | ->]]; auto.
Qed.

Lemma demoMulti_lookup chatId agentId random now i m :
  data_messages (data (demoMulti chatId agentId random now)) !! i = Some m ->
  exists response,
    take (numMessages random) demoResponses !! i = Some response
    /\ m = demoMessage chatId agentId now (numMessages random) i response.
Proof.
  unfold demoMulti. simpl. rewrite list_lookup_imap.
  destruct (take (numMessages random) demoResponses !! i) as [response|]; simpl; [|done].
  intros [= <-]. eauto.
Qed.

(** C6. In demo mode [sendMessageMulti] returns, and what it returns is a
    well-formed batch: N is 2, 3 or 4; the fragment at position i (from 0)
    has messageIndex i+1 and totalMessages N; isFirst holds exactly at
    index 1 and isAdditional exactly at the others; timestamps increase
    strictly (the clock read by [Date.now()] does not run backwards). *)
Theorem demo_batch_well_formed token chatId content agentId (random : Q) (now : clock)
    (backend : outcome multi_response) :
  demo_mode token chatId = true ->
  (0 <= random)%Q -> (random < 1)%Q ->
  (forall i j, (i <= j)%nat -> now i <= now j) ->
  exists r,
    sendMessageMulti token chatId content agentId random now backend = Ok r
    /\ success r = true
    /\ data_isMultiMessage (data r) = true
    /\ (let ms := data_messages (data r) in
        let N := length ms in
        (N = 2 \/ N = 3 \/ N = 4)%nat
        /\ data_totalMessages (data r) = N
        /\ (forall i m, ms !! i = Some m ->
              messageIndex m = Some (i + 1)%nat
              /\ totalMessages m = Some N
              /\ isMultiMessage m = Some true
              /\ isFirst m = Some (i =? 0)%nat
              /\ isAdditional m = Some (0 <? i)%nat)
        /\ length (filter (fun m => isFirst m = Some true) ms) = 1%nat
        /\ (forall i j mi mj, ms !! i = Some mi -> ms !! j = Some mj ->
              (i < j)%nat -> timestamp mi < timestamp mj)).
Proof.
  intros Hdemo H0 H1 Hmono. unfold sendMessageMulti. rewrite Hdemo.
  eexists; split; [reflexivity|]. split; [done|]. split; [done|].
  assert (Hlen : length (data_messages (data (demoMulti chatId agentId random now)))
                 = numMessages random).
  { unfold demoMulti. simpl. rewrite length_imap, length_take.
    destruct (numMessages_range random H0 H1) as [-> | [-> | ->]]; reflexivity. }
  cbv zeta. rewrite Hlen. split; [by apply numMessages_range|]. split; [done|].
  split; [|split].
  - intros i m Hm. apply demoMulti_lookup in Hm as (response & _ & ->). done.
  - unfold demoMulti. simpl.
    destruct (numMessages_range random H0 H1) as [-> | [-> | ->]]; reflexivity.
  - intros i j mi mj Hi Hj Hij.
    apply demoMulti_lookup in Hi as (ri & _ & ->).
    apply demoMulti_lookup in Hj as (rj & _ & ->).
    unfold demoMessage; cbn [timestamp].
    assert (now (2 * i + 1)%nat <= now (2 * j + 1)%nat) by (apply Hmono; lia).
    lia.
Qed.

Lemma demo_batch_well_formed_witness :
  exists r,
    sendMessageMulti None "demo-chat-1" "hi" "priya" (1 # 2) (fun k => 1000 + Z.of_nat k)
      (Throw (NetworkError "offline")) = Ok r
    /\ success r = true
    /\ data_isMultiMessage (data r) = true
    /\ (let ms := data_messages (data r) in
        let N := length ms in
        (N = 2 \/ N = 3 \/ N = 4)%nat
        /\ data_totalMessages (data r) = N
        /\ (forall i m, ms !! i = Some m ->
              messageIndex m = Some (i + 1)%nat
              /\ totalMessages m = Some N
              /\ isMultiMessage m = Some true
              /\ isFirst m = Some (i =? 0)%nat
              /\ isAdditional m = Some (0 <? i)%nat)
        /\ length (filter (fun m => isFirst m = Some true) ms) = 1%nat
        /\ (forall i j mi mj, ms !! i = Some mi -> ms !! j = Some mj ->
              (i < j)%nat -> timestamp mi < timestamp mj)).
Proof.
  apply (demo_batch_well_formed None "demo-chat-1" "hi" "priya" (1 # 2)
           (fun k => 1000 + Z.of_nat k) (Throw (NetworkError "offline"))).
  - reflexivity.
  - by compute.
  - by compute.
  - intros i j Hij. lia.
Defined.

(* ===================================================================== *)
(** ** Streaming reader *)
(* ===================================================================== *)

Section StreamFacts.
Variable JSON_parse : string -> option jsval.

(** An [error] record is handed to [onError] and the function returns. *)
Lemma error_record_returns line data :
  startsWith "data: " line = true ->
  JSON_parse (slice 6 line) = Some data ->
  prop data "type" = Some (JStr "error") ->
  handle_line JSON_parse line = ([OnError (opt_prop data "error")], true).
Proof. intros Hs Hp Ht. unfold handle_line. by rewrite Hs, Hp, Ht. Qed.

(** A [complete] record calls [onComplete]; the loop goes on. *)
Lemma complete_record_continues line data :
  startsWith "data: " line = true ->
  JSON_parse (slice 6 line) = Some data ->
  prop data "type" = Some (JStr "complete") ->
  handle_line JSON_parse line = ([OnComplete], false).
Proof. intros Hs Hp Ht. unfold handle_line. by rewrite Hs, Hp, Ht. Qed.

(** A [message] record hands on its [data] as it is. *)
Lemma message_record_passed line data :
  startsWith "data: " line = true ->
  JSON_parse (slice 6 line) = Some data ->
  prop data "type" = Some (JStr "message") ->
  handle_line JSON_parse line = ([OnMessage (Fragment (opt_prop data "data"))], false).
Proof. intros Hs Hp Ht. unfold handle_line. by rewrite Hs, Hp, Ht. Qed.

(** A record that is not JSON is warned about and skipped. *)
Lemma malformed_record_skipped line :
  startsWith "data: " line = true ->
  JSON_parse (slice 6 line) = None ->
  handle_line JSON_parse line = ([Warn line], false).
Proof. intros Hs Hp. unfold handle_line. by rewrite Hs, Hp. Qed.

(** Nothing of a chunk is looked at after the line on which the function
    returned. *)
Lemma lines_after_return_ignored before line after evs ev :
  handle_lines JSON_parse before = (evs, false) ->
  handle_line JSON_parse line = (ev, true) ->
  handle_lines JSON_parse (before ++ line :: after) = (evs ++ ev, true).
Proof.
  revert evs. induction before as [|l0 before IH]; intros evs Hb Hl; simpl in *.
  - injection Hb as <-. by rewrite Hl.
  - destruct (handle_line JSON_parse l0) as [e0 [|]]; [congruence|].
    destruct (handle_lines JSON_parse before) as [e1 r1].
    injection Hb as <- ->. rewrite (IH e1 eq_refl Hl). by rewrite app_assoc.
Qed.

(** Whereas the lines after a line that did not return are all handled. *)
Lemma lines_after_continue_handled line after ev :
  handle_line JSON_parse line = (ev, false) ->
  handle_lines JSON_parse (line :: after)
  = (ev ++ fst (handle_lines JSON_parse after), snd (handle_lines JSON_parse after)).
Proof.
  intros Hl. simpl. rewrite Hl. by destruct (handle_lines JSON_parse after).
Qed.

End StreamFacts.

(** The demo branch stops at its [onComplete]. *)
Lemma demoStream_ends_with_complete random :
  last (demoStream random) = Some OnComplete.
Proof. unfold demoStream. rewrite last_cons, last_snoc. done. Qed.

(** C8. A body that carries the records connected, complete and a late
    message: the reader calls [onComplete] and then still delivers the
    message, the [complete] branch having no [return]. *)
Theorem stream_continues_after_complete :
  sendMessageStream parse_examples lateStream
  = [OnMessage Connected; OnComplete; OnMessage (Fragment (JStr "late"))].
Proof. vm_compute. reflexivity. Qed.

(* ===================================================================== *)
(** ** Pacing of a reveal *)
(* ===================================================================== *)

Lemma typingDelay_nonneg m : 0 <= typingDelay m.
Proof. unfold typingDelay. lia. Qed.

Lemma delay_typingDelay m : delay (typingDelay m) = typingDelay m.
Proof. unfold delay. pose proof (typingDelay_nonneg m). lia. Qed.

Lemma timeline_app a b t :
  timeline t (a ++ b)
  = timeline t a ++ from_option (fun t' => timeline t' b) [] (completion t a).
Proof.
  revert t. induction a as [|x a IH]; intros t; simpl; [done|].
  destruct x as [e|ms|ep [latency|]|ms cb]; simpl; by rewrite ?IH.
Qed.

Lemma completion_app a b t :
  completion t (a ++ b) = completion t a ≫= fun t' => completion t' b.
Proof.
  revert t. induction a as [|x a IH]; intros t; simpl; [done|].
  destruct x as [e|ms|ep [latency|]|ms cb]; simpl; by rewrite ?IH.
Qed.

Lemma append_times_app a b t :
  append_times t (a ++ b)
  = append_times t a ++ from_option (fun t' => append_times t' b) [] (completion t a).
Proof.
  unfold append_times. rewrite timeline_app, omap_app.
  by destruct (completion t a).
Qed.

Lemma apply_all_app evs1 evs2 s :
  apply_all (evs1 ++ evs2) s = apply_all evs2 (apply_all evs1 s).
Proof. unfold apply_all. apply fold_left_app. Qed.

Lemma suspensions_app a b t s :
  suspensions t s (a ++ b)
  = suspensions t s a
    ++ from_option (fun t' => suspensions t' (apply_all (timeline t a) s) b) []
         (completion t a).
Proof.
  revert t s. induction a as [|x a IH]; intros t s; simpl; [done|].
  destruct x as [e|ms|ep [latency|]|ms cb]; simpl; by rewrite ?IH.
Qed.

Lemma reveal_from_cons start total m rest :
  reveal_from start total (m :: rest)
  = displayMessageWithTyping m
      {| o_isFirst := (start =? 0)%nat; o_isAdditional := (0 <? start)%nat |}
    ++ (if (start <? total - 1)%nat then [Sleep 1500] else [])
    ++ reveal_from (S start) total rest.
Proof. reflexivity. Qed.

Lemma completion_display m o t :
  completion t (displayMessageWithTyping m o) = Some (t + typingDelay m).
Proof.
  unfold displayMessageWithTyping.
  destruct (o_isFirst o), (o_isAdditional o); simpl; by rewrite delay_typingDelay.
Qed.

Lemma append_times_display m o t :
  append_times t (displayMessageWithTyping m o) = [t + typingDelay m].
Proof.
  unfold displayMessageWithTyping, append_times.
  destruct (o_isFirst o), (o_isAdditional o); simpl; by rewrite delay_typingDelay.
Qed.

(** The pause is there exactly when a fragment follows. *)
Lemma pause_iff_more start total (rest : list Message) :
  (start + S (length rest) = total)%nat ->
  (start <? total - 1)%nat = match rest with [] => false | _ => true end.
Proof.
  intros Hlen. destruct rest; simpl in *.
  - apply Nat.ltb_ge. lia.
  - apply Nat.ltb_lt. lia.
Qed.

Lemma append_times_reveal_from ms : forall start total t,
  (start + length ms = total)%nat ->
  append_times t (reveal_from start total ms) = paced t ms.
Proof.
  induction ms as [|m rest IH]; intros start total t Hlen; [done|].
  simpl in Hlen. rewrite reveal_from_cons, (pause_iff_more _ _ rest Hlen).
  rewrite append_times_app, append_times_display, completion_display. simpl.
  f_equal. destruct rest as [|m' rest']; [done|].
  rewrite append_times_app. change (append_times _ [Sleep 1500]) with (@nil Z).
  simpl. change (delay 1500) with 1500.
  apply (IH (S start) total). simpl in *. lia.
Qed.

Lemma append_times_reveal ms t : append_times t (reveal ms) = paced t ms.
Proof. apply append_times_reveal_from. done. Qed.

Lemma paced_gap ms : forall t i ti tj m,
  paced t ms !! i = Some ti ->
  paced t ms !! S i = Some tj ->
  ms !! S i = Some m ->
  tj - ti = 1500 + typingDelay m.
Proof.
  induction ms as [|m0 rest IH]; intros t i ti tj m Hi Hj Hm; [done|].
  destruct i as [|i]; simpl in *.
  - destruct rest as [|m1 rest']; simpl in *; [done|].
    injection Hi as <-. injection Hj as <-. injection Hm as <-. lia.
  - eapply IH; eauto.
Qed.

(** C2, as the code has it.  The typing delay is served before every
    fragment: the first append comes [typingDelay] of fragment 1 after the
    start, and between the appends of fragments i and i+1 lie 1500 ms plus
    the typing delay of fragment i+1. *)
Theorem pause_follows_typing_delay (ms : list Message) (t : Z) (i : nat) (ti tj : Z)
    (m0 m : Message) :
  ms !! 0%nat = Some m0 ->
  append_times t (reveal ms) !! i = Some ti ->
  append_times t (reveal ms) !! S i = Some tj ->
  ms !! S i = Some m ->
  append_times t (reveal ms) !! 0%nat = Some (t + typingDelay m0)
  /\ tj - ti = 1500 + typingDelay m.
Proof.
  rewrite append_times_reveal. intros H0 Hi Hj Hm. split.
  - destruct ms; simpl in *; [done|]. by injection H0 as ->.
  - eapply paced_gap; eauto.
Qed.

Lemma pause_follows_typing_delay_witness :
  append_times 0 (reveal twoFragments) !! 0%nat = Some (0 + typingDelay (fragment 1 2 "hi"))
  /\ 1850 - 100 = 1500 + typingDelay (fragment 2 2 "hello").
Proof.
  apply (pause_follows_typing_delay twoFragments 0 0 100 1850
           (fragment 1 2 "hi") (fragment 2 2 "hello")); reflexivity.
Defined.

(** C2 as stated fails: after "hi" the five-letter fragment "hello" is
    appended 1750 ms later, not 1500 ms. *)
Lemma pause_is_not_fixed :
  append_times 0 (reveal twoFragments) = [100; 1850] /\ ~ pause_is_fixed.
Proof.
  split; [reflexivity|].
  intros H. specialize (H twoFragments 0 0%nat 100 1850 eq_refl eq_refl). lia.
Qed.

Lemma completion_reveal_from ms : forall start total t,
  (start + length ms = total)%nat ->
  completion t (reveal_from start total ms)
  = match ms with [] => Some t | _ => last (paced t ms) end.
Proof.
  induction ms as [|m rest IH]; intros start total t Hlen; [done|].
  simpl in Hlen. rewrite reveal_from_cons, (pause_iff_more _ _ rest Hlen).
  rewrite completion_app, completion_display. simpl.
  destruct rest as [|m' rest']; [done|].
  rewrite completion_app. cbn [completion mbind option_bind].
  change (delay 1500) with 1500.
  rewrite (IH (S start) total) by (simpl in *; lia). reflexivity.
Qed.

Lemma reveal_from_last ms : forall start total m,
  (start + length ms = total)%nat ->
  last ms = Some m ->
  exists before, reveal_from start total ms = before ++ [Do (append (fun _ => m))].
Proof.
  induction ms as [|m0 rest IH]; intros start total m Hlen Hlast; [done|].
  simpl in Hlen. rewrite reveal_from_cons, (pause_iff_more _ _ rest Hlen).
  destruct rest as [|m1 rest'].
  - injection Hlast as <-. simpl. rewrite app_nil_r.
    unfold displayMessageWithTyping. eexists. rewrite !app_assoc. reflexivity.
  - destruct (IH (S start) total m) as [before Hb]; [simpl in *; lia | done |].
    rewrite Hb. eexists. rewrite !app_assoc. reflexivity.
Qed.

(** C9. The last action of a reveal is the append of the last fragment,
    and the reveal completes at the very time of that append: no pause
    follows it. *)
Theorem no_delay_after_last_fragment (m : Message) (rest : list Message) (t : Z) :
  (exists before mlast,
      last (m :: rest) = Some mlast
      /\ reveal (m :: rest) = before ++ [Do (append (fun _ => mlast))])
  /\ (exists tlast,
      last (append_times t (reveal (m :: rest))) = Some tlast
      /\ completion t (reveal (m :: rest)) = Some tlast).
Proof.
  split.
  - destruct (last (m :: rest)) as [mlast|] eqn:Hl.
    + destruct (reveal_from_last (m :: rest) 0 (length (m :: rest)) mlast eq_refl Hl)
        as [before Hb].
      by exists before, mlast.
    + by rewrite last_cons in Hl; destruct (last rest).
  - rewrite append_times_reveal. unfold reveal.
    rewrite (completion_reveal_from (m :: rest) 0 (length (m :: rest)) t eq_refl).
    destruct (last (paced t (m :: rest))) as [tlast|] eqn:Hl; [eauto|].
    exfalso. simpl in Hl. rewrite last_cons in Hl. by destruct (last _).
Qed.

(** *** A script alone on the timer queue follows its timeline *)

Lemma run_alone expertName who sc : forall w,
  Forall sets_no_timer sc ->
  queue w = [] ->
  exists n,
    trace (run expertName n (run_segment who sc w))
    = trace w ++ events_of who (timeline (now w) sc)
    /\ component (run expertName n (run_segment who sc w))
       = apply_all (timeline (now w) sc) (component w).
Proof.
  induction sc as [|a sc IH]; intros w Hsc Hq.
  - exists 0%nat. simpl. by rewrite app_nil_r.
  - apply Forall_cons in Hsc as [Ha Hsc].
    destruct a as [e|ms|ep [latency|]|ms cb]; simpl.
    + destruct (IH {| now := now w;
                      component := apply_effect (now w) e (component w);
                      queue := queue w;
                      trace := trace w ++ [{| ev_time := now w; ev_owner := who;
                                              ev_effect := e |}] |} Hsc Hq)
        as (n & Htr & Hst).
      exists n. rewrite Htr, Hst. simpl. by rewrite <- app_assoc.
    + destruct (IH {| now := now w + delay ms; component := component w;
                      queue := []; trace := trace w |} Hsc eq_refl)
        as (n & Htr & Hst).
      exists (S n). rewrite Hq. simpl. unfold step. simpl.
      replace (Z.max (now w) (now w + delay ms)) with (now w + delay ms)
        by (unfold delay; lia).
      by rewrite Htr, Hst.
    + destruct (IH {| now := now w + delay latency; component := component w;
                      queue := []; trace := trace w |} Hsc eq_refl)
        as (n & Htr & Hst).
      exists (S n). rewrite Hq. simpl. unfold step. simpl.
      replace (Z.max (now w) (now w + delay latency)) with (now w + delay latency)
        by (unfold delay; lia).
      by rewrite Htr, Hst.
    + exists 0%nat. simpl. by rewrite app_nil_r.
    + by destruct (Ha ms cb).
Qed.

(* ===================================================================== *)
(** ** Demo mode on the send path *)
(* ===================================================================== *)

Lemma demo_flag_kept sc : forall t s,
  Forall keeps_demo_flag sc ->
  isDemoMode (apply_all (timeline t sc) s) = isDemoMode s.
Proof.
  induction sc as [|a sc IH]; intros t s Hsc; [done|].
  apply Forall_cons in Hsc as [Ha Hsc].
  destruct a as [e|ms|ep [latency|]|ms cb]; simpl; try (by apply IH); try done.
  change (apply_all ((t, e) :: timeline t sc) s)
    with (apply_all (timeline t sc) (apply_effect t e s)).
  rewrite IH by done.
  destruct e as [m|b|b|mk]; try done. by destruct (Ha b).
Qed.

Lemma display_keeps_demo_flag m o : Forall keeps_demo_flag (displayMessageWithTyping m o).
Proof.
  unfold displayMessageWithTyping.
  destruct (o_isFirst o), (o_isAdditional o); simpl; repeat constructor; done.
Qed.

Lemma reveal_keeps_demo_flag ms : forall start total,
  Forall keeps_demo_flag (reveal_from start total ms).
Proof.
  induction ms as [|m rest IH]; intros start total; [constructor|].
  rewrite reveal_from_cons. rewrite !Forall_app. split; [|split].
  - apply display_keeps_demo_flag.
  - destruct (start <? total - 1)%nat; repeat constructor; done.
  - apply IH.
Qed.

(** C3, as the code has it.  After a turn the demo-mode flag is set when
    it was set before or when both gateway calls of the turn, the
    multi-message call and then the single-message call, settled with an
    error; in that case the script also sets the timer of the canned demo
    reply.  Nothing on the send path clears the flag. *)
Theorem send_failure_flips_demo_mode (expertName : string) (s : state) (o : oracle) (t : Z) :
  isDemoMode (apply_all (timeline t (App.sendMessage expertName s o)) s)
  = isDemoMode s || both_calls_fail s o
  /\ (both_calls_fail s o = true ->
      exists chat, currentChat s = Some chat
        /\ Do (setIsDemoMode true) ∈ App.sendMessage expertName s o
        /\ demoReply chat (getAgentId expertName) o ∈ App.sendMessage expertName s o).
Proof.
  unfold both_calls_fail, accepted, App.sendMessage.
  destruct (trim (message s)) as [|c text]; [by rewrite orb_false_r|].
  destruct (currentChat s) as [chat|]; [|by rewrite orb_false_r].
  destruct (isSending s); [by rewrite orb_false_r|].
  unfold sendMessageWithMultiResponse, settles_throwing.
  destruct (multi_latency o) as [l1|]; [|by rewrite andb_false_r, orb_false_r].
  destruct (multi_reply o) as [response|e1].
  - split; [|by rewrite andb_false_r]. rewrite andb_false_r, orb_false_r.
    apply demo_flag_kept.
    repeat (apply Forall_cons; split; [done|]).
    apply Forall_app; split; [|repeat constructor; done].
    destruct (success response && data_isMultiMessage (data response)).
    + apply reveal_keeps_demo_flag.
    + destruct (data_messages (data response)); [constructor|].
      apply display_keeps_demo_flag.
  - unfold sendMessageFallback.
    destruct (isDemoMode s) eqn:Hdemo; simpl; [by rewrite Hdemo|].
    destruct (send_latency o) as [l2|]; simpl; [|by rewrite Hdemo].
    destruct (send_reply_of o) as [[r|ms n pm]|e2]; simpl.
    + destruct (content r); simpl; by rewrite Hdemo.
    + by rewrite Hdemo.
    + split; [done|]. intros _. exists chat. split; [done|].
      split; set_solver.
Qed.

Lemma send_failure_flips_demo_mode_witness :
  let s := typed "hi" (ready backendChat (Some "u1") false []) in
  isDemoMode (apply_all (timeline 0 (App.sendMessage "Priya" s offline)) s)
  = isDemoMode s || both_calls_fail s offline
  /\ exists chat, currentChat s = Some chat
       /\ Do (setIsDemoMode true) ∈ App.sendMessage "Priya" s offline
       /\ demoReply chat (getAgentId "Priya") offline ∈ App.sendMessage "Priya" s offline.
Proof.
  intros s.
  destruct (send_failure_flips_demo_mode "Priya" s offline 0) as [Heq Hreply].
  split; [exact Heq|]. apply Hreply. reflexivity.
Defined.

(** C3 as stated fails: with the backend down, one turn takes the session
    from [isDemoMode = false] to [isDemoMode = true]. *)
Lemma send_failure_sets_demo_mode :
  let s := typed "hi" (ready backendChat (Some "u1") false []) in
  isDemoMode s = false
  /\ isDemoMode (apply_all (timeline 0 (App.sendMessage "Priya" s offline)) s) = true
  /\ ~ demo_flag_untouched.
Proof.
  intros s. split; [reflexivity|]. split; [reflexivity|].
  intros H. specialize (H "Priya" s offline 0). discriminate H.
Qed.

(* ===================================================================== *)
(** ** The Message Store only grows *)
(* ===================================================================== *)

Lemma apply_effect_prefix t e s :
  messages s `prefix_of` messages (apply_effect t e s).
Proof. destruct e; simpl; try done. by apply prefix_app_r. Qed.

Lemma run_segment_prefix who sc : forall w,
  messages (component w) `prefix_of` messages (component (run_segment who sc w)).
Proof.
  induction sc as [|a sc IH]; intros w; [done|].
  destruct a as [e|ms|ep [latency|]|ms cb]; simpl; try done.
  - etrans; [|apply IH]. simpl. apply apply_effect_prefix.
  - etrans; [|apply IH]. done.
Qed.

Lemma step_prefix expertName w w' :
  step expertName w = Some w' ->
  messages (component w) `prefix_of` messages (component w').
Proof.
  unfold step. destruct (queue w) as [|tk rest]; [done|].
  destruct (script_of expertName (todo tk) (component w)) as [s sc] eqn:Hsc.
  intros [= <-]. etrans; [|apply run_segment_prefix]. simpl.
  unfold script_of in Hsc. destruct (todo tk) as [r|text o].
  - by injection Hsc as <- <-.
  - destruct (isSending (component w)); by injection Hsc as <- <-.
Qed.

Lemma run_prefix expertName n : forall w,
  messages (component w) `prefix_of` messages (component (run expertName n w)).
Proof.
  induction n as [|n IH]; intros w; [done|]. simpl.
  destruct (step expertName w) as [w'|] eqn:Hstep; [|done].
  etrans; [by eapply step_prefix | apply IH].
Qed.

(** When the guard refuses, nothing is done: no update, no call. *)
Lemma refused_turn_is_silent expertName s o :
  accepted s = false -> App.sendMessage expertName s o = [].
Proof.
  unfold accepted, App.sendMessage.
  by destruct (trim (message s)), (currentChat s), (isSending s).
Qed.

(** C7. When send is pressed with a text whose trimmed form is not empty
    (in a session with a chat whose indicator is down), the script of the
    turn appends the user message and only then calls the gateway; and
    whatever the gateway does afterwards, fail, hang or answer, the
    message stays in the store at its position, unchanged, in every later
    state of the event loop. *)
Theorem user_message_kept (expertName : string) (w : world) (tk : task) (q : list task)
    (text : string) (o : oracle) (chat : Chat) (n : nat) :
  queue w = tk :: q ->
  todo tk = Submit text o ->
  trim text <> EmptyString ->
  currentChat (component w) = Some chat ->
  isSending (component w) = false ->
  exists userMessage rest,
    App.sendMessage expertName (typed text (component w)) o
    = Do (setMessage EmptyString) :: Do (setIsSending true) :: Do (append userMessage)
      :: Call MultiEndpoint (multi_latency o) :: rest
    /\ content (userMessage (Z.max (now w) (wake tk))) = trim text
    /\ role (userMessage (Z.max (now w) (wake tk))) = Types.user
    /\ (messages (component w) ++ [userMessage (Z.max (now w) (wake tk))])
         `prefix_of` messages (component (run expertName (S n) w)).
Proof.
  intros Hq Htodo Htrim Hchat Hidle.
  assert (Hscript : exists userMessage rest,
    App.sendMessage expertName (typed text (component w)) o
    = Do (setMessage EmptyString) :: Do (setIsSending true) :: Do (append userMessage)
      :: Call MultiEndpoint (multi_latency o) :: rest
    /\ forall t, content (userMessage t) = trim text /\ role (userMessage t) = Types.user).
  { unfold App.sendMessage. simpl. rewrite Hchat, Hidle.
    destruct (trim text) as [|c r] eqn:Ht; [done|].
    do 2 eexists. split; [reflexivity|]. intros t. by simpl. }
  destruct Hscript as (userMessage & rest & Hscript & Hum).
  exists userMessage, rest. split; [exact Hscript|].
  split; [apply Hum|]. split; [apply Hum|].
  simpl. unfold step. rewrite Hq, Htodo. simpl. rewrite Hidle, Hscript.
  etrans; [|apply run_prefix].
  simpl. destruct (multi_latency o); simpl; done.
Qed.

Lemma user_message_kept_witness :
  let w := start (ready backendChat (Some "u1") false [])
             [ {| wake := 0; owner := 0; todo := Submit " hello " hung |} ] in
  exists userMessage rest,
    App.sendMessage "Priya" (typed " hello " (component w)) hung
    = Do (setMessage EmptyString) :: Do (setIsSending true) :: Do (append userMessage)
      :: Call MultiEndpoint (multi_latency hung) :: rest
    /\ content (userMessage (Z.max (now w) 0)) = trim " hello "
    /\ role (userMessage (Z.max (now w) 0)) = Types.user
    /\ (messages (component w) ++ [userMessage (Z.max (now w) 0)])
         `prefix_of` messages (component (run "Priya" 4 w)).
Proof.
  intros w.
  apply (user_message_kept "Priya" w
           {| wake := 0; owner := 0; todo := Submit " hello " hung |} []
           " hello " hung backendChat 3).
  - reflexivity.
  - reflexivity.
  - vm_compute. discriminate.
  - reflexivity.
  - reflexivity.
Defined.

(* ===================================================================== *)
(** ** Typing indicator *)
(* ===================================================================== *)

Lemma later_fragments_leave_flag ms : forall start total,
  (0 < start)%nat -> Forall not_flag (reveal_from start total ms).
Proof.
  induction ms as [|m rest IH]; intros start total Hpos; [constructor|].
  rewrite reveal_from_cons. rewrite !Forall_app. split; [|split].
  - unfold displayMessageWithTyping.
    destruct start as [|start]; [lia|]. simpl. repeat constructor; done.
  - destruct (start <? total - 1)%nat; repeat constructor; done.
  - apply IH. lia.
Qed.

Lemma flag_kept_while_suspended sc : forall t s s0,
  Forall not_flag sc ->
  isSending s = isSending s0 ->
  messages s0 `prefix_of` messages s ->
  Forall (fun x => isSending x.2 = isSending s0 /\ messages s0 `prefix_of` messages x.2)
    (suspensions t s sc).
Proof.
  induction sc as [|a sc IH]; intros t s s0 Hsc Hflag Hpre; [constructor|].
  apply Forall_cons in Hsc as [Ha Hsc].
  destruct a as [e|ms|ep [latency|]|ms cb]; simpl.
  - apply IH; [done| |].
    + rewrite <- Hflag. destruct e as [x|b|b|mk]; try done. by destruct (Ha b).
    + etrans; [exact Hpre | apply apply_effect_prefix].
  - constructor; [done|]. by apply IH.
  - constructor; [done|]. by apply IH.
  - constructor.
  - by apply IH.
Qed.

Lemma flag_kept_to_the_end sc : forall t s,
  Forall not_flag sc ->
  isSending (apply_all (timeline t sc) s) = isSending s.
Proof.
  induction sc as [|a sc IH]; intros t s Hsc; [done|].
  apply Forall_cons in Hsc as [Ha Hsc].
  destruct a as [e|ms|ep [latency|]|ms cb]; simpl; try (by apply IH); try done.
  change (apply_all ((t, e) :: timeline t sc) s)
    with (apply_all (timeline t sc) (apply_effect t e s)).
  rewrite IH by done.
  destruct e as [x|b|b|mk]; try done. by destruct (Ha b).
Qed.

(** C5, for one reveal cycle.  The cycle raises the indicator when it is
    invoked, lowers it in the same step in which it appends fragment 1,
    and holds no other update of the indicator.  Run undisturbed, the
    indicator is up during the one delay that precedes fragment 1, and
    down, with fragment 1 in the store, at every later suspension and at
    the end. *)
Theorem typing_indicator_of_a_cycle (m : Message) (rest : list Message) (t : Z) (s : state) :
  (exists tail,
      reveal (m :: rest)
      = Do (setIsSending true) :: Sleep (typingDelay m)
        :: Do (setIsSending false) :: Do (append (fun _ => m)) :: tail
      /\ Forall not_flag tail)
  /\ (exists s1 later,
      suspensions t s (reveal (m :: rest)) = (t, t + typingDelay m, s1) :: later
      /\ isSending s1 = true
      /\ messages s1 = messages s
      /\ Forall (fun x => isSending x.2 = false
                          /\ (messages s ++ [m]) `prefix_of` messages x.2) later)
  /\ isSending (apply_all (timeline t (reveal (m :: rest))) s) = false.
Proof.
  set (tail := (if (0 <? length (m :: rest) - 1)%nat then [Sleep 1500] else [])
               ++ reveal_from 1 (length (m :: rest)) rest).
  assert (Hreveal : reveal (m :: rest)
      = Do (setIsSending true) :: Sleep (typingDelay m)
        :: Do (setIsSending false) :: Do (append (fun _ => m)) :: tail) by reflexivity.
  assert (Htail : Forall not_flag tail).
  { apply Forall_app; split.
    - destruct (0 <? length (m :: rest) - 1)%nat; repeat constructor; done.
    - apply later_fragments_leave_flag. lia. }
  split; [by exists tail|]. rewrite Hreveal. split.
  - simpl. rewrite delay_typingDelay. do 2 eexists. split; [reflexivity|].
    split; [done|]. split; [done|].
    match goal with
    | |- Forall _ (suspensions _ ?s2 _) =>
        apply (flag_kept_while_suspended tail _ s2 s2 Htail eq_refl); done
    end.
  - simpl.
    change (apply_all ((t, setIsSending true) :: (t + delay (typingDelay m), setIsSending false)
                       :: (t + delay (typingDelay m), append (fun _ => m))
                       :: timeline (t + delay (typingDelay m)) tail) s)
      with (apply_all (timeline (t + delay (typingDelay m)) tail)
              (apply_effect (t + delay (typingDelay m)) (append (fun _ => m))
                 (apply_effect (t + delay (typingDelay m)) (setIsSending false)
                    (apply_effect t (setIsSending true) s)))).
    by rewrite flag_kept_to_the_end.
Qed.

(** The same for a whole turn, whichever branch reveals the batch: the
    indicator is up while the gateway call is pending and during the delay
    before fragment 1, and down, with fragment 1 in the store, from then on. *)
Lemma typing_indicator_of_a_turn expertName s o t latency response m rest :
  accepted s = true ->
  multi_latency o = Some latency ->
  multi_reply o = Ok response ->
  data_messages (data response) = m :: rest ->
  exists s0 later,
    suspensions t s (App.sendMessage expertName s o)
    = (t, t + delay latency, s0)
      :: (t + delay latency, t + delay latency + typingDelay m, s0) :: later
    /\ isSending s0 = true
    /\ Forall (fun x => isSending x.2 = false /\ m ∈ messages x.2) later
    /\ isSending (apply_all (timeline t (App.sendMessage expertName s o)) s) = false.
Proof.
  unfold accepted, App.sendMessage. intros Hacc Hlat Hreply Hms.
  destruct (trim (message s)) as [|c text]; [done|].
  destruct (currentChat s) as [chat|]; [|done].
  destruct (isSending s) eqn:Hidle; [done|].
  unfold sendMessageWithMultiResponse. rewrite Hlat, Hreply, Hms.
  destruct (success response && data_isMultiMessage (data response)).
  - set (others := (if (0 <? length (m :: rest) - 1)%nat then [Sleep 1500] else [])
                 ++ reveal_from 1 (length (m :: rest)) rest).
    assert (Hothers : Forall not_flag others).
    { apply Forall_app; split.
      - destruct (0 <? length (m :: rest) - 1)%nat; repeat constructor; done.
      - apply later_fragments_leave_flag. lia. }
    change (reveal (m :: rest))
      with (Do (setIsSending true) :: Sleep (typingDelay m)
            :: Do (setIsSending false) :: Do (append (fun _ => m)) :: others).
    simpl. rewrite delay_typingDelay. do 2 eexists. split; [reflexivity|].
    split; [done|]. split.
    + rewrite suspensions_app. apply Forall_app. split.
      * eapply Forall_impl;
          [apply (flag_kept_while_suspended others _ _ _ Hothers eq_refl); done|].
        simpl. intros x [Hx Hpre]. split; [done|].
        destruct Hpre as [k ->]. set_solver.
      * by destruct (completion _ others).
    + rewrite timeline_app. unfold apply_all. simpl. rewrite fold_left_app.
      destruct (completion (t + delay latency + typingDelay m) others); simpl; [done|].
      fold (apply_all (timeline (t + delay latency + typingDelay m) others)).
      by rewrite (flag_kept_to_the_end others _ _ Hothers).
  - unfold displayMessageWithTyping. simpl. rewrite delay_typingDelay.
    do 2 eexists. split; [reflexivity|]. split; [done|]. split; [constructor|done].
Qed.

(** C5 as stated fails when turns overlap: turn 1 is accepted at 4000 ms,
    between the two fragments of turn 0 (3000 ms and 7500 ms), and raises
    the indicator. *)
Lemma indicator_raised_during_batch :
  glance <$> trace (run "Priya" 8 overlapping)
  = [ (0, 0%nat, Input EmptyString); (0, 0%nat, Sending true);
      (0, 0%nat, Appended "user-0"); (0, 0%nat, Sending true);
      (3000, 0%nat, Sending false); (3000, 0%nat, Appended "demo-multi-0-0");
      (4000, 1%nat, Input EmptyString); (4000, 1%nat, Sending true);
      (4000, 1%nat, Appended "user-4000"); (4000, 1%nat, Sending true);
      (7000, 1%nat, Sending false); (7000, 1%nat, Appended "demo-multi-4000-0");
      (7500, 0%nat, Appended "demo-multi-0-1"); (7500, 0%nat, Sending false) ]
  /\ raised_within_batch (trace (run "Priya" 8 overlapping)) = true
  /\ ~ indicator_never_raised_again.
Proof.
  split; [vm_compute; reflexivity|]. split; [vm_compute; reflexivity|].
  intros H.
  specialize (H "Priya" demoChat (Some "u1") false []
                [ {| wake := 0; owner := 0; todo := Submit "hi" (demoOracle "hi" 0) |};
                  {| wake := 4000; owner := 1;
                     todo := Submit "again" (demoOracle "again" 4000) |} ] 8%nat).
  assert (Hraised : raised_within_batch (trace (run "Priya" 8 overlapping)) = true)
    by (vm_compute; reflexivity).
  unfold overlapping in Hraised. rewrite H in Hraised; [discriminate|].
  repeat constructor; simpl; eauto.
Qed.

(* ===================================================================== *)
(** ** Turns on the shared store *)
(* ===================================================================== *)

(** *** What scripts append *)

Lemma builders_app a b : builders (a ++ b) = builders a ++ builders b.
Proof.
  induction a as [|x a IH]; [done|].
  destruct x as [e|ms|ep latency|ms cb]; simpl; by rewrite ?IH, ?app_assoc.
Qed.

Lemma builders_display m o : builders (displayMessageWithTyping m o) = [fun _ => m].
Proof.
  unfold displayMessageWithTyping.
  by destruct (o_isFirst o), (o_isAdditional o).
Qed.

Lemma builders_reveal_from ms : forall start total,
  builders (reveal_from start total ms) = (fun m _ => m) <$> ms.
Proof.
  induction ms as [|m rest IH]; intros start total; [done|].
  rewrite reveal_from_cons, !builders_app, builders_display, IH.
  by destruct (start <? total - 1)%nat.
Qed.

Lemma builders_quiet sc : quiet sc = true -> builders sc = [].
Proof.
  induction sc as [|a sc IH]; [done|]. simpl. intros [Ha Hsc]%andb_prop.
  destruct a as [[x|b|b|mk]|ms|ep latency|ms cb]; try done; simpl; by apply IH.
Qed.

Lemma builders_callback cb : builders (map Do cb) = omap effect_builder cb.
Proof.
  induction cb as [|e cb IH]; [done|]. simpl. rewrite IH.
  by destruct (effect_builder e).
Qed.

Lemma tame_callback cb : tame (map Do cb) = true.
Proof. induction cb as [|e cb IH]; done. Qed.

Lemma tame_app a b : Forall sets_no_timer a -> tame (a ++ b) = tame b.
Proof.
  induction 1 as [|x a Hx Ha IH]; [done|].
  destruct x as [e|ms|ep latency|ms cb]; simpl; try done. by destruct (Hx ms cb).
Qed.

Lemma display_sets_no_timer m o : Forall sets_no_timer (displayMessageWithTyping m o).
Proof.
  unfold displayMessageWithTyping.
  destruct (o_isFirst o), (o_isAdditional o); simpl; repeat constructor; done.
Qed.

Lemma reveal_sets_no_timer ms : forall start total,
  Forall sets_no_timer (reveal_from start total ms).
Proof.
  induction ms as [|m rest IH]; intros start total; [constructor|].
  rewrite reveal_from_cons, !Forall_app. split; [|split].
  - apply display_sets_no_timer.
  - destruct (start <? total - 1)%nat; repeat constructor; done.
  - apply IH.
Qed.

Lemma sendMessage_tame expertName s o : tame (App.sendMessage expertName s o) = true.
Proof.
  unfold App.sendMessage.
  destruct (trim (message s)) as [|c text]; [done|].
  destruct (currentChat s) as [chat|]; [|done].
  destruct (isSending s); [done|].
  cbn [app tame]. unfold sendMessageWithMultiResponse. cbn [app tame].
  destruct (multi_reply o) as [response|e].
  - rewrite tame_app; [done|].
    destruct (success response && data_isMultiMessage (data response)).
    + apply reveal_sets_no_timer.
    + destruct (data_messages (data response)); [constructor|].
      apply display_sets_no_timer.
  - unfold sendMessageFallback.
    destruct (isDemoMode s); [done|]. simpl.
    destruct (send_reply_of o) as [[r|ms n pm]|e2]; try done.
    by destruct (content r).
Qed.

(** The appends of a turn whose multi-message call gave a batch. *)
Lemma builders_of_batch_turn expertName s o response :
  multi_reply o = Ok response ->
  success response = true ->
  data_isMultiMessage (data response) = true ->
  builders (App.sendMessage expertName s o) = []
  \/ exists ub : builder,
       (forall t, role (ub t) = Types.user /\ content (ub t) = trim (message s))
       /\ builders (App.sendMessage expertName s o)
          = ub :: ((fun m _ => m) <$> data_messages (data response)).
Proof.
  intros Hreply Hok Hmulti. unfold App.sendMessage.
  destruct (trim (message s)) as [|c text]; [by left|].
  destruct (currentChat s) as [chat|]; [|by left].
  destruct (isSending s); [by left|]. right.
  eexists. split; [|].
  2:{ cbn [app builders effect_builder from_option].
      unfold sendMessageWithMultiResponse. rewrite Hreply, Hok, Hmulti.
      cbn [app builders andb]. rewrite builders_app. unfold reveal.
      rewrite builders_reveal_from. simpl. rewrite app_nil_r. reflexivity. }
  intros t. by simpl.
Qed.

(** *** The queue and the trace, turn by turn *)

Lemma owned_enqueue_other k tk q :
  owner tk <> k -> owned k (enqueue tk q) = owned k q.
Proof.
  intros Hne. unfold owned. induction q as [|x q IH]; simpl.
  - by rewrite filter_cons_False.
  - destruct (wake x <=? wake tk).
    + rewrite !filter_cons. by rewrite IH.
    + by rewrite (filter_cons_False _ tk).
Qed.

Lemma owned_enqueue_own k tk q :
  owner tk = k -> owned k q = [] -> owned k (enqueue tk q) = [tk].
Proof.
  intros Heq. unfold owned. induction q as [|x q IH]; simpl; intros Hq.
  - by rewrite filter_cons_True.
  - rewrite filter_cons in Hq. destruct (decide (owner x = k)); [done|].
    destruct (wake x <=? wake tk).
    + rewrite filter_cons_False by done. by apply IH.
    + rewrite filter_cons_True by done. rewrite filter_cons_False by done.
      by rewrite Hq.
Qed.

Lemma appended_by_snoc k tr ev :
  appended_by k (tr ++ [ev])
  = appended_by k tr
    ++ (if decide (ev_owner ev = k)
        then from_option (fun mk => [(ev_time ev, mk)]) [] (effect_builder (ev_effect ev))
        else []).
Proof.
  unfold appended_by. rewrite omap_app. f_equal. simpl.
  destruct (decide (ev_owner ev = k)); [|done].
  by destruct (effect_builder (ev_effect ev)).
Qed.

(** A task of another turn leaves the tasks and the appends of turn [k]
    alone. *)
Lemma run_segment_other k who sc : forall w,
  who <> k ->
  owned k (queue (run_segment who sc w)) = owned k (queue w)
  /\ appended_by k (trace (run_segment who sc w)) = appended_by k (trace w).
Proof.
  induction sc as [|a sc IH]; intros w Hne; [done|].
  destruct a as [e|ms|ep [latency|]|ms cb]; simpl; try done.
  - destruct (IH {| now := now w;
                    component := apply_effect (now w) e (component w);
                    queue := queue w;
                    trace := trace w ++ [{| ev_time := now w; ev_owner := who;
                                            ev_effect := e |}] |} Hne) as [-> ->].
    simpl. rewrite appended_by_snoc. simpl.
    rewrite decide_False by done. by rewrite app_nil_r.
  - by rewrite owned_enqueue_other.
  - by rewrite owned_enqueue_other.
  - destruct (IH {| now := now w; component := component w;
                    queue := enqueue {| wake := now w + delay ms; owner := who;
                                        todo := Resume (map Do cb) |} (queue w);
                    trace := trace w |} Hne) as [-> ->].
    simpl. by rewrite owned_enqueue_other.
Qed.

Lemma run_segment_quiet k who sc : forall w,
  quiet sc = true ->
  queue (run_segment who sc w) = queue w
  /\ appended_by k (trace (run_segment who sc w)) = appended_by k (trace w).
Proof.
  induction sc as [|a sc IH]; intros w Hq; [done|].
  simpl in Hq. apply andb_prop in Hq as [Ha Hsc].
  destruct a as [[x|b|b|mk]|ms|ep latency|ms cb]; try done; simpl.
  all: match goal with
       | |- context [run_segment _ _ ?w1] => destruct (IH w1 Hsc) as [-> ->]
       end; simpl.
  all: rewrite appended_by_snoc; simpl.
  all: case_decide; by rewrite app_nil_r.
Qed.

(** A task of turn [k] itself: what it appends is taken off the head of
    what its script still has to append; at most one task of the turn is
    left in the queue, holding the rest. *)
Lemma run_segment_own k sc : forall w,
  tame sc = true ->
  owned k (queue w) = [] ->
  exists rem,
    (appended_by k (trace (run_segment k sc w))).*2 ++ rem
    = (appended_by k (trace w)).*2 ++ builders sc
    /\ (owned k (queue (run_segment k sc w)) = []
        \/ exists tk' sc',
             owned k (queue (run_segment k sc w)) = [tk']
             /\ todo tk' = Resume sc' /\ tame sc' = true /\ builders sc' = rem).
Proof.
  induction sc as [|a sc IH]; intros w Htame Hown.
  - exists []. split; [done|]. by left.
  - destruct a as [e|ms|ep [latency|]|ms cb]; simpl in *.
    + destruct (IH {| now := now w;
                      component := apply_effect (now w) e (component w);
                      queue := queue w;
                      trace := trace w ++ [{| ev_time := now w; ev_owner := k;
                                              ev_effect := e |}] |} Htame Hown)
        as (rem & Heq & Hq).
      exists rem. split; [|exact Hq].
      rewrite Heq. simpl. rewrite appended_by_snoc. simpl.
      rewrite decide_True by done. rewrite fmap_app, <- app_assoc. f_equal.
      by destruct (effect_builder e).
    + exists (builders sc). split; [done|]. right.
      do 2 eexists. split; [by apply owned_enqueue_own|]. done.
    + exists (builders sc). split; [done|]. right.
      do 2 eexists. split; [by apply owned_enqueue_own|]. done.
    + exists (builders sc). split; [done|]. by left.
    + match goal with
      | |- context [run_segment k sc ?w1] =>
          destruct (run_segment_quiet k k sc w1 Htame) as [-> ->]
      end. simpl.
      exists (omap effect_builder cb). split.
      * by rewrite (builders_quiet sc Htame), app_nil_r.
      * right. do 2 eexists. split; [by apply owned_enqueue_own|].
        split; [done|]. split; [apply tame_callback | apply builders_callback].
Qed.

(** *** Each turn appends in the order of its script *)

Lemma step_turn_inv expertName k text o w w' :
  turn_inv expertName k text o w ->
  step expertName w = Some w' ->
  turn_inv expertName k text o w'.
Proof.
  intros Hinv. unfold step. destruct (queue w) as [|tk0 rest] eqn:Hq; [done|].
  destruct (script_of expertName (todo tk0) (component w)) as [s sc] eqn:Hsc.
  intros [= <-]. unfold turn_inv in Hinv. rewrite Hq in Hinv.
  set (w1 := {| now := Z.max (now w) (wake tk0); component := s;
                queue := rest; trace := trace w |}).
  destruct (decide (owner tk0 = k)) as [Hk|Hk].
  - assert (Hrest : owned k (tk0 :: rest) = tk0 :: owned k rest)
      by (unfold owned; by rewrite filter_cons_True).
    rewrite Hrest in Hinv. subst k.
    destruct Hinv as [(tk & Hown & Htodo & Happ) | (s' & rem & Hplan & Hown)].
    + injection Hown as <- Hnone. rewrite Htodo in Hsc. simpl in Hsc.
      right. destruct (isSending (component w)).
      * injection Hsc as <- <-. simpl.
        exists (component w). eexists. rewrite Happ. split; [reflexivity|]. by left.
      * injection Hsc as <- <-.
        destruct (run_segment_own (owner tk0)
                    (App.sendMessage expertName (typed text (component w)) o) w1
                    (sendMessage_tame _ _ _) Hnone) as (rem & Heq & Hq').
        exists (component w), rem. split; [|exact Hq'].
        rewrite Heq. simpl. by rewrite Happ.
    + destruct Hown as [Hown | (tk & sc' & Hown & Htodo & Htame & Hrem)]; [done|].
      injection Hown as <- Hnone. rewrite Htodo in Hsc. injection Hsc as <- <-.
      destruct (run_segment_own (owner tk0) sc' w1 Htame Hnone) as (rem' & Heq & Hq').
      right. exists s', rem'. split; [|exact Hq'].
      rewrite Heq. simpl. by rewrite Hrem.
  - assert (Hrest : owned k (tk0 :: rest) = owned k rest)
      by (unfold owned; by rewrite filter_cons_False).
    rewrite Hrest in Hinv.
    destruct (run_segment_other k (owner tk0) sc w1 Hk) as [Hown Happ].
    unfold turn_inv. rewrite Hown, Happ. exact Hinv.
Qed.

Lemma run_turn_inv expertName k text o n : forall w,
  turn_inv expertName k text o w ->
  turn_inv expertName k text o (run expertName n w).
Proof.
  induction n as [|n IH]; intros w Hinv; [done|]. simpl.
  destruct (step expertName w) as [w'|] eqn:Hstep; [|done].
  apply IH. by eapply step_turn_inv.
Qed.

Lemma owned_start_none k q :
  k ∉ owner <$> q -> owned k (fold_right enqueue [] q) = [].
Proof.
  induction q as [|x q IH]; [done|]. simpl. intros Hk.
  apply not_elem_of_cons in Hk as [Hx Hq].
  rewrite owned_enqueue_other by done. by apply IH.
Qed.

Lemma owned_start_one tk q :
  NoDup (owner <$> q) -> tk ∈ q ->
  owned (owner tk) (fold_right enqueue [] q) = [tk].
Proof.
  induction q as [|x q IH]; intros Hnd Hin; [by apply elem_of_nil in Hin|].
  simpl in *. apply NoDup_cons in Hnd as [Hx Hq].
  apply elem_of_cons in Hin as [->|Hin].
  - apply owned_enqueue_own; [done|]. by apply owned_start_none.
  - rewrite owned_enqueue_other; [by apply IH|].
    intros Heq. apply Hx. rewrite Heq. by apply list_elem_of_fmap_2.
Qed.

Lemma built_constants tb : forall (batch : list Message) rem,
  tb.*2 ++ rem = (fun m _ => m) <$> batch ->
  built <$> tb `prefix_of` batch.
Proof.
  induction tb as [|[t mk] tb IH]; intros batch rem Heq; [apply prefix_nil|].
  destruct batch as [|m batch]; [done|]. simpl in Heq.
  injection Heq as -> Heq. simpl. unfold built at 1. simpl.
  apply prefix_cons. by eapply IH.
Qed.

Lemma messages_of_in_store k tr :
  built <$> appended_by k tr `sublist_of` appended_all tr.
Proof.
  induction tr as [|ev tr IH]; [done|].
  unfold appended_by, appended_all in *. simpl.
  destruct (decide (ev_owner ev = k)); destruct (effect_builder (ev_effect ev)); simpl.
  - by apply sublist_skip.
  - done.
  - by apply sublist_cons.
  - done.
Qed.

Lemma run_segment_store who sc : forall w base,
  messages (component w) = base ++ appended_all (trace w) ->
  messages (component (run_segment who sc w))
  = base ++ appended_all (trace (run_segment who sc w)).
Proof.
  induction sc as [|a sc IH]; intros w base Hw; [done|].
  destruct a as [e|ms|ep [latency|]|ms cb]; simpl; try done.
  - apply IH. simpl. unfold appended_all. rewrite omap_app. simpl.
    fold (appended_all (trace w)).
    destruct e as [x|b|b|mk]; simpl; rewrite ?app_nil_r; try done.
    by rewrite Hw, app_assoc.
  - by apply IH.
Qed.

Lemma run_store expertName n : forall w base,
  messages (component w) = base ++ appended_all (trace w) ->
  messages (component (run expertName n w))
  = base ++ appended_all (trace (run expertName n w)).
Proof.
  induction n as [|n IH]; intros w base Hw; [done|]. simpl.
  destruct (step expertName w) as [w'|] eqn:Hstep; [|done].
  apply IH. unfold step in Hstep. destruct (queue w) as [|tk rest]; [done|].
  destruct (script_of expertName (todo tk) (component w)) as [s sc] eqn:Hsc.
  injection Hstep as <-. apply run_segment_store. simpl.
  unfold script_of in Hsc. destruct (todo tk) as [r|text o].
  - by injection Hsc as <- <-.
  - destruct (isSending (component w)); by injection Hsc as <- <-.
Qed.

Lemma guard_refuses expertName s o :
  isSending s = true -> App.sendMessage expertName s o = [].
Proof.
  intros Hs. unfold App.sendMessage. rewrite Hs.
  by destruct (trim (message s)), (currentChat s).
Qed.

(** C1, as the code has it.  Reveal cycles are not serialised; what holds
    in every run of the event loop, however the turns overlap, is that a
    turn is refused while the indicator is up, and that each turn puts
    its own messages into the store in order: for a turn whose gateway
    call gave a batch, its user message and then the fragments of the
    batch, in batch order, as far as the reveal has come. *)
Theorem fragments_keep_batch_order (expertName : string) (s : state) (q : list task)
    (n : nat) (tk : task) (text : string) (o : oracle) (response : multi_response) :
  NoDup (owner <$> q) ->
  tk ∈ q ->
  todo tk = Submit text o ->
  multi_reply o = Ok response ->
  success response = true ->
  data_isMultiMessage (data response) = true ->
  let w := run expertName n (start s q) in
  (forall st o', isSending st = true -> App.sendMessage expertName st o' = [])
  /\ messages_of (owner tk) w `sublist_of` messages (component w)
  /\ (messages_of (owner tk) w = []
      \/ exists um, role um = Types.user /\ content um = trim text
           /\ messages_of (owner tk) w `prefix_of` um :: data_messages (data response)).
Proof.
  intros Hnd Hin Htodo Hreply Hok Hmulti w.
  split; [intros st o'; apply guard_refuses|]. split.
  - unfold w. rewrite (run_store expertName n (start s q) (messages s))
      by (simpl; by rewrite app_nil_r).
    apply sublist_inserts_l, messages_of_in_store.
  - assert (Hinv : turn_inv expertName (owner tk) text o w).
    { apply run_turn_inv. left. exists tk.
      split; [by apply owned_start_one|]. done. }
    unfold messages_of.
    destruct Hinv as [(tk' & _ & _ & ->) | (s' & rem & Hplan & _)]; [by left|].
    destruct (builders_of_batch_turn expertName (typed text s') o response Hreply Hok Hmulti)
      as [Hnil | (ub & Hub & Hb)].
    + rewrite Hnil in Hplan. apply app_eq_nil in Hplan as [Hplan _].
      apply fmap_nil_inv in Hplan. rewrite Hplan. by left.
    + rewrite Hb in Hplan.
      destruct (appended_by (owner tk) (trace w)) as [|[t0 mk0] tb]; [by left|].
      right. simpl in Hplan. injection Hplan as -> Hplan.
      exists (ub t0). destruct (Hub t0) as [Hrole Hcontent].
      split; [done|]. split; [done|].
      simpl. unfold built at 1. simpl. apply prefix_cons. by eapply built_constants.
Qed.

Lemma fragments_keep_batch_order_witness :
  let w := run "Priya" 10 overlapping in
  (forall st o', isSending st = true -> App.sendMessage "Priya" st o' = [])
  /\ messages_of 0 w `sublist_of` messages (component w)
  /\ (messages_of 0 w = []
      \/ exists um, role um = Types.user /\ content um = trim "hi"
           /\ messages_of 0 w
                `prefix_of` um :: data_messages (data (demoMulti "demo-chat-1" "priya" 0
                                                         (fun _ => 0)))).
Proof.
  apply (fragments_keep_batch_order "Priya" (ready demoChat (Some "u1") false [])
           [ {| wake := 0; owner := 0; todo := Submit "hi" (demoOracle "hi" 0) |};
             {| wake := 4000; owner := 1; todo := Submit "again" (demoOracle "again" 4000) |} ]
           10 {| wake := 0; owner := 0; todo := Submit "hi" (demoOracle "hi" 0) |}
           "hi" (demoOracle "hi" 0) (demoMulti "demo-chat-1" "priya" 0 (fun _ => 0))).
  - by apply (bool_decide_unpack _).
  - apply list_elem_of_here.
  - reflexivity.
  - reflexivity.
  - reflexivity.
  - reflexivity.
Defined.

(** C1 as stated fails: turn 1, submitted after the first fragment of
    turn 0, gets its first fragment into the store before the second
    fragment of turn 0. *)
Lemma turns_interleave :
  id <$> messages (component (run "Priya" 10 overlapping))
  = ["user-0"; "demo-multi-0-0"; "user-4000"; "demo-multi-4000-0";
     "demo-multi-0-1"; "demo-multi-4000-1"]
  /\ fragment_owners (run "Priya" 10 overlapping) = [0; 1; 0; 1]%nat
  /\ ~ turns_never_interleave.
Proof.
  split; [vm_compute; reflexivity|]. split; [vm_compute; reflexivity|].
  intros H.
  assert (Hq : only_submits
                 [ {| wake := 0; owner := 0; todo := Submit "hi" (demoOracle "hi" 0) |};
                   {| wake := 4000; owner := 1;
                      todo := Submit "again" (demoOracle "again" 4000) |} ])
    by (repeat constructor; simpl; eauto).
  apply (H "Priya" demoChat (Some "u1") false [] _ 10%nat Hq 0%nat 1%nat); [done|].
  replace (fragment_owners _) with [0; 1; 0; 1]%nat by (vm_compute; reflexivity).
  repeat constructor.
Qed.


(* ===================================================================== *)
(** ** More on the streaming reader *)
(* ===================================================================== *)

Lemma clean_nil : clean [].
Proof. intros e He. by apply elem_of_nil in He. Qed.

Lemma clean_app evs1 evs2 : clean evs1 -> clean evs2 -> clean (evs1 ++ evs2).
Proof.
  intros H1 H2 e He. apply elem_of_app in He as [He|He]; [by apply (H1 e) | by apply (H2 e)].
Qed.

Lemma clean_error_is_last evs : clean evs -> error_is_last evs.
Proof.
  intros Hc i e Hi. destruct (Hc e). by eapply list_elem_of_lookup_2.
Qed.

Lemma clean_then_error_is_last evs e : clean evs -> error_is_last (evs ++ [OnError e]).
Proof.
  intros Hc i e' Hi. rewrite length_app. simpl.
  destruct (decide (i < length evs)%nat) as [Hlt|Hge].
  - rewrite lookup_app_l in Hi by done. destruct (Hc e'). by eapply list_elem_of_lookup_2.
  - apply lookup_lt_Some in Hi. rewrite length_app in Hi. simpl in Hi. lia.
Qed.

Section ReaderFacts.
Variable JSON_parse : string -> option jsval.

(** A line either does not return and calls no [onError], or returns
    with the one call of [onError]. *)
Lemma handle_line_shape line :
  match handle_line JSON_parse line with
  | (evs, false) => clean evs
  | (evs, true) => exists e, evs = [OnError e]
  end.
Proof.
  unfold handle_line, clean.
  repeat case_match; simplify_eq; eauto; intros e He;
    repeat (apply elem_of_cons in He as [He|He]; [discriminate He|]);
    by apply elem_of_nil in He.
Qed.

Lemma handle_lines_shape lines :
  match handle_lines JSON_parse lines with
  | (evs, false) => clean evs
  | (evs, true) => exists before e, evs = before ++ [OnError e] /\ clean before
  end.
Proof.
  induction lines as [|line rest IH]; simpl; [apply clean_nil|].
  pose proof (handle_line_shape line) as Hl.
  destruct (handle_line JSON_parse line) as [evs [|]].
  - destruct Hl as [e ->]. exists [], e. split; [done | apply clean_nil].
  - destruct (handle_lines JSON_parse rest) as [evs' [|]].
    + destruct IH as (before & e & -> & Hb).
      exists (evs ++ before), e. split; [by rewrite app_assoc | by apply clean_app].
    + by apply clean_app.
Qed.

Lemma read_loop_shape chunks ending :
  clean (read_loop JSON_parse chunks ending)
  \/ exists before e, read_loop JSON_parse chunks ending = before ++ [OnError e]
                      /\ clean before.
Proof.
  induction chunks as [|chunk rest IH]; simpl.
  - destruct ending as [|msg]; [left; apply clean_nil|].
    right. exists [], (JStr msg). split; [done | apply clean_nil].
  - pose proof (handle_lines_shape (split_lines chunk)) as Hc.
    destruct (handle_lines JSON_parse (split_lines chunk)) as [evs [|]].
    + right. destruct Hc as (before & e & -> & Hb). eauto.
    + destruct IH as [Hr | (before & e & -> & Hb)].
      * left. by apply clean_app.
      * right. exists (evs ++ before), e.
        split; [by rewrite app_assoc | by apply clean_app].
Qed.

(** X1. Whatever the body holds and however it ends, the reader calls
    nothing after an [onError]: in the sequence of calls an [onError] can
    only be the last one, so there is at most one. *)
Theorem nothing_after_onError (response : stream_response) :
  error_is_last (sendMessageStream JSON_parse response).
Proof.
  destruct response as [msg| |chunks ending]; simpl.
  - apply (clean_then_error_is_last [] _ clean_nil).
  - apply (clean_then_error_is_last [] _ clean_nil).
  - destruct (read_loop_shape chunks ending) as [Hc | (before & e & -> & Hb)].
    + by apply clean_error_is_last.
    + by apply clean_then_error_is_last.
Qed.

Lemma handle_lines_app before after :
  handle_lines JSON_parse (before ++ after)
  = let '(evs, returned) := handle_lines JSON_parse before in
    if returned then (evs, true)
    else let '(evs', returned') := handle_lines JSON_parse after in
         (evs ++ evs', returned').
Proof.
  induction before as [|line before IH]; simpl.
  - by destruct (handle_lines JSON_parse after).
  - destruct (handle_line JSON_parse line) as [evs [|]]; [done|].
    rewrite IH. destruct (handle_lines JSON_parse before) as [evs1 [|]]; [done|].
    destruct (handle_lines JSON_parse after) as [evs2 r2]. by rewrite app_assoc.
Qed.

(** X2. What the reader delivers depends only on the sequence of lines
    of the chunks, not on how the lines are spread over chunks: it is
    what the lines, handled one after the other, deliver up to the first
    error record, followed, when there is no error record, by the
    [onError] of a read that failed. *)
Theorem reader_follows_lines (chunks : list string) (ending : stream_end) :
  read_loop JSON_parse chunks ending
  = let '(evs, returned) := handle_lines JSON_parse (concat (split_lines <$> chunks)) in
    if returned then evs else evs ++ ending_events ending.
Proof.
  induction chunks as [|chunk rest IH].
  - by destruct ending.
  - change (concat (split_lines <$> chunk :: rest))
      with (split_lines chunk ++ concat (split_lines <$> rest)).
    cbn [read_loop]. rewrite handle_lines_app, IH.
    destruct (handle_lines JSON_parse (split_lines chunk)) as [evs [|]]; [done|].
    destruct (handle_lines JSON_parse (concat (split_lines <$> rest))) as [evs' [|]];
      [done | by rewrite app_assoc].
Qed.

End ReaderFacts.

(** X3. The demo branch of the stream, for every draw of [Math.random()]:
    it announces the connection first, then delivers 2, 3 or 4 fragments
    numbered from 1 with the total on each, calls [onComplete] once, as
    the last call, and never calls [onError]. *)
Theorem demo_stream_shape (random : Q) :
  (0 <= random)%Q -> (random < 1)%Q ->
  exists N : nat,
    (N = 2 \/ N = 3 \/ N = 4)%nat
    /\ length (demoStream random) = (N + 2)%nat
    /\ demoStream random !! 0%nat = Some (OnMessage Connected)
    /\ demoStream random !! S N = Some OnComplete
    /\ (forall i, demoStream random !! i = Some OnComplete -> i = S N)
    /\ clean (demoStream random)
    /\ (forall i, (i < N)%nat ->
          exists data,
            demoStream random !! S i = Some (OnMessage (Fragment data))
            /\ prop data "content" = JStr <$> demoMessages !! i
            /\ prop data "messageIndex" = Some (JNum (Z.of_nat i + 1))
            /\ prop data "totalMessages" = Some (JNum (Z.of_nat N))
            /\ prop data "isFirst" = Some (JBool (i =? 0)%nat)).
Proof.
  intros H0 H1. exists (numMessages random). unfold demoStream.
  destruct (numMessages_range random H0 H1) as [Hn | [Hn | Hn]]; rewrite Hn;
    (split; [auto|]); (split; [reflexivity|]); (split; [reflexivity|]);
    (split; [reflexivity|]); (split; [|split]).
  all: try (intros i Hi;
            do 6 (destruct i as [|i]; [first [discriminate Hi | reflexivity]|]);
            discriminate Hi).
  all: try (intros e He;
            repeat (apply elem_of_cons in He as [He|He]; [discriminate He|]);
            by apply elem_of_nil in He).
  all: intros i Hi;
       do 4 (destruct i as [|i];
             [first [lia | eexists; split; [reflexivity|]; repeat split; vm_compute; reflexivity]|]);
       lia.
Qed.

Lemma demo_stream_shape_witness :
  exists N : nat,
    (N = 2 \/ N = 3 \/ N = 4)%nat
    /\ length (demoStream (1 # 2)) = (N + 2)%nat
    /\ demoStream (1 # 2) !! 0%nat = Some (OnMessage Connected)
    /\ demoStream (1 # 2) !! S N = Some OnComplete
    /\ (forall i, demoStream (1 # 2) !! i = Some OnComplete -> i = S N)
    /\ clean (demoStream (1 # 2))
    /\ (forall i, (i < N)%nat ->
          exists data,
            demoStream (1 # 2) !! S i = Some (OnMessage (Fragment data))
            /\ prop data "content" = JStr <$> demoMessages !! i
            /\ prop data "messageIndex" = Some (JNum (Z.of_nat i + 1))
            /\ prop data "totalMessages" = Some (JNum (Z.of_nat N))
            /\ prop data "isFirst" = Some (JBool (i =? 0)%nat)).
Proof. apply (demo_stream_shape (1 # 2)); by compute. Defined.

(* ===================================================================== *)
(** ** More on the normalisation *)
(* ===================================================================== *)

Lemma same_batch_start f f' :
  same_batch {| d_isMultiMessage := f; d_messages := []; d_totalMessages := 1 |}
             {| d_isMultiMessage := f'; d_messages := []; d_totalMessages := 1 |}.
Proof. repeat split. by left. Qed.

Lemma detect_array_agree o o' d d' :
  o !! "messages" = o' !! "messages" ->
  same_batch d d' ->
  exists d1 d1', detect_array (JObj o) d = Ok d1 /\ detect_array (JObj o') d' = Ok d1'
                 /\ same_batch d1 d1'.
Proof.
  intros Hm Hd. unfold detect_array. simpl. rewrite <- Hm.
  destruct (default JUndefined (o !! "messages")) as [ | | | | | l | ]; simpl; eauto.
  destruct (1 <? length l)%nat; eauto.
  do 2 eexists. repeat split. by right.
Qed.

Lemma detect_nested_agree o o' d d' :
  o !! "data" = o' !! "data" ->
  same_batch d d' ->
  match detect_nested (JObj o) d, detect_nested (JObj o') d' with
  | Ok d2, Ok d2' => same_batch d2 d2'
  | Throw e, Throw e' => e = e'
  | _, _ => False
  end.
Proof.
  intros Hm Hd. unfold detect_nested. simpl. rewrite <- Hm.
  destruct (truthy (default JUndefined (o !! "data"))); [|done].
  destruct (get (default JUndefined (o !! "data")) "messages") as [m|e]; simpl; [|done].
  destruct m as [ | | | | | l | ]; try done.
  destruct (1 <? length l)%nat; [|done].
  destruct (map_content l) as [ms|e]; simpl; [|done].
  repeat split. by right.
Qed.

Lemma respond_agree chatId agentId now o o' d d' :
  agree_off_flags o o' ->
  same_batch d d' ->
  respond chatId agentId now (JObj o) d = respond chatId agentId now (JObj o') d'.
Proof.
  intros Ho (Hms & Htotal & Hflag).
  assert (Hk : forall k, k <> "isMultiMessage" -> k <> "is_multi_message" ->
                         opt_prop (JObj o) k = opt_prop (JObj o') k).
  { intros k H1 H2. unfold opt_prop. simpl. by rewrite (Ho k H1 H2). }
  unfold respond, primaryId, primaryContent, primaryTimestamp.
  rewrite !(Hk "data"), !(Hk "id"), !(Hk "content"), !(Hk "timestamp") by done.
  rewrite <- Hms, <- Htotal.
  destruct Hflag as [Hnil | [-> ->]]; [|done].
  rewrite Hnil. simpl. by rewrite !andb_false_r.
Qed.

(** X4. The [isMultiMessage] and [is_multi_message] flags of a response
    have no effect on the normalisation: two response objects that agree
    on every other property are normalised to the same result (or both
    throw). *)
Theorem multi_flags_are_ignored chatId agentId now (o o' : gmap string jsval) :
  agree_off_flags o o' ->
  normalize chatId agentId now (JObj o) = normalize chatId agentId now (JObj o').
Proof.
  intros Ho. unfold normalize, detect_flag. simpl.
  destruct (detect_array_agree o o' _ _ (Ho "messages" ltac:(done) ltac:(done))
              (same_batch_start
                 (truthy (default JUndefined (o !! "isMultiMessage"))
                  || truthy (default JUndefined (o !! "is_multi_message")))
                 (truthy (default JUndefined (o' !! "isMultiMessage"))
                  || truthy (default JUndefined (o' !! "is_multi_message")))))
    as (d1 & d1' & -> & -> & Hd1).
  simpl.
  pose proof (detect_nested_agree o o' d1 d1' (Ho "data" ltac:(done) ltac:(done)) Hd1) as Hn.
  destruct (detect_nested (JObj o) d1) as [d2|e], (detect_nested (JObj o') d1') as [d2'|e'];
    simpl; try done.
  - f_equal. by apply respond_agree.
  - by rewrite Hn.
Qed.

Lemma multi_flags_are_ignored_witness :
  normalize "chat-7" "priya" (fun _ => 0)
    (JObj (list_to_map [("isMultiMessage", JBool true); ("content", JStr "solo")]))
  = normalize "chat-7" "priya" (fun _ => 0)
    (JObj (list_to_map [("is_multi_message", JBool false); ("content", JStr "solo")])).
Proof.
  apply (multi_flags_are_ignored "chat-7" "priya" (fun _ => 0)
           (list_to_map [("isMultiMessage", JBool true); ("content", JStr "solo")])
           (list_to_map [("is_multi_message", JBool false); ("content", JStr "solo")])).
  intros k H1 H2. simpl.
  rewrite (lookup_insert_ne _ "isMultiMessage" k) by done.
  rewrite (lookup_insert_ne _ "is_multi_message" k) by done.
  reflexivity.
Defined.

Lemma map_content_length l ms : map_content l = Ok ms -> length ms = length l.
Proof.
  intros H. pose proof (map_content_spec l) as Hs. rewrite H in Hs. by destruct Hs.
Qed.

(** The locals after the three checks: either untouched, or a batch of
    at least two with its count. *)
Lemma detection_counted result d0 d1 d2 :
  d_messages d0 = [] ->
  detect_array result d0 = Ok d1 ->
  detect_nested result d1 = Ok d2 ->
  d_messages d2 = []
  \/ (d_isMultiMessage d2 = true /\ d_totalMessages d2 = length (d_messages d2)
      /\ (2 <= length (d_messages d2))%nat).
Proof.
  intros H0 H1 H2.
  assert (Hd1 : d_messages d1 = []
                \/ (d_isMultiMessage d1 = true /\ d_totalMessages d1 = length (d_messages d1)
                    /\ (2 <= length (d_messages d1))%nat)).
  { unfold detect_array in H1. destruct (get result "messages") as [m|e]; simpl in H1; [|done].
    destruct m as [ | | | | | l | ]; try (injection H1 as <-; by left).
    destruct (1 <? length l)%nat eqn:Hl; injection H1 as <-; [|by left].
    right. simpl. apply Nat.ltb_lt in Hl. repeat split; lia. }
  unfold detect_nested in H2. destruct (get result "data") as [dt|e]; simpl in H2; [|done].
  destruct (truthy dt); [|by injection H2 as <-].
  destruct (get dt "messages") as [m|e]; simpl in H2; [|done].
  destruct m as [ | | | | | l | ]; try (by injection H2 as <-).
  destruct (1 <? length l)%nat eqn:Hl; [|by injection H2 as <-].
  destruct (map_content l) as [ms|e] eqn:Hms; simpl in H2; [|done].
  injection H2 as <-. right. simpl. apply Nat.ltb_lt in Hl.
  rewrite (map_content_length l ms Hms). repeat split; lia.
Qed.

(** X5. Whatever a successful response holds, the result of the
    normalisation is well formed: the multi-message shape carries at least
    two messages and [totalMessages] is their number, and in both shapes
    the primary message is an assistant message of user [ai] with the chat
    and agent of the request. *)
Theorem normalized_result_well_formed chatId agentId now (result : jsval) (r : send_result) :
  normalize chatId agentId now result = Ok r ->
  match r with
  | Single _ => True
  | Multi ms n _ => n = length ms /\ (2 <= n)%nat
  end
  /\ raw_role (primaryMessage_of r) = assistant
  /\ raw_userId (primaryMessage_of r) = "ai"
  /\ raw_chatId (primaryMessage_of r) = chatId
  /\ raw_agentId (primaryMessage_of r) = agentId.
Proof.
  unfold normalize. intros H.
  destruct (detect_flag result) as [d0|e] eqn:H0; simpl in H; [|done].
  destruct (detect_array result d0) as [d1|e] eqn:H1; simpl in H; [|done].
  destruct (detect_nested result d1) as [d2|e] eqn:H2; simpl in H; [|done].
  injection H as <-.
  assert (Hnil : d_messages d0 = []).
  { unfold detect_flag in H0.
    destruct (get result "isMultiMessage"); simpl in H0; [|done].
    destruct (get result "is_multi_message"); simpl in H0; [|done].
    by injection H0 as <-. }
  pose proof (detection_counted result d0 d1 d2 Hnil H1 H2) as Hd.
  unfold respond. destruct (primaryId result now) as [rid reads].
  destruct (d_isMultiMessage d2 && (1 <? length (d_messages d2))%nat) eqn:Hm; [|done].
  repeat split; try done.
  - destruct Hd as [Hd | (_ & Hd & _)]; [|done]. rewrite Hd in Hm.
    by rewrite andb_false_r in Hm.
  - apply andb_prop in Hm as [_ Hl%Nat.ltb_lt].
    destruct Hd as [Hd | (_ & -> & _)]; [rewrite Hd in Hl; simpl in Hl|]; lia.
Qed.

Lemma normalized_result_well_formed_witness :
  exists r,
    normalize "chat-7" "priya" (fun _ => 0)
      (obj [("data", obj [("messages", JArr [obj [("content", JStr "a")]; JStr "b"])])])
    = Ok r
    /\ match r with
       | Single _ => True
       | Multi ms n _ => n = length ms /\ (2 <= n)%nat
       end
    /\ raw_role (primaryMessage_of r) = assistant
    /\ raw_userId (primaryMessage_of r) = "ai"
    /\ raw_chatId (primaryMessage_of r) = "chat-7"
    /\ raw_agentId (primaryMessage_of r) = "priya".
Proof.
  eexists. split; [vm_compute; reflexivity|].
  apply (normalized_result_well_formed "chat-7" "priya" (fun _ => 0)
           (obj [("data", obj [("messages", JArr [obj [("content", JStr "a")]; JStr "b"])])])).
  vm_compute. reflexivity.
Defined.

(* ===================================================================== *)
(** ** More on turns *)
(* ===================================================================== *)

Lemma messages_apply_all tl : forall s,
  messages (apply_all tl s) = messages s ++ appended tl.
Proof.
  induction tl as [|[t e] tl IH]; intros s; [by rewrite app_nil_r|].
  change (apply_all ((t, e) :: tl) s) with (apply_all tl (apply_effect t e s)).
  rewrite IH. destruct e as [x|b|b|mk]; try done.
  simpl. by rewrite <- app_assoc.
Qed.

Lemma appended_app tl1 tl2 : appended (tl1 ++ tl2) = appended tl1 ++ appended tl2.
Proof. apply omap_app. Qed.

Lemma appended_display m o t : appended (timeline t (displayMessageWithTyping m o)) = [m].
Proof.
  unfold displayMessageWithTyping.
  by destruct (o_isFirst o), (o_isAdditional o).
Qed.

Lemma completion_reveal_some ms : forall start total t,
  exists t', completion t (reveal_from start total ms) = Some t'.
Proof.
  induction ms as [|m rest IH]; intros start total t; [by eexists|].
  rewrite reveal_from_cons, !completion_app, completion_display. simpl.
  destruct (start <? total - 1)%nat; simpl; apply IH.
Qed.

Lemma appended_reveal_from ms : forall start total t,
  appended (timeline t (reveal_from start total ms)) = ms.
Proof.
  induction ms as [|m rest IH]; intros start total t; [done|].
  rewrite reveal_from_cons, timeline_app, appended_app, appended_display,
    completion_display.
  simpl. f_equal. rewrite timeline_app, appended_app.
  destruct (start <? total - 1)%nat; simpl; apply IH.
Qed.

(** The script of an accepted turn whose multi-message call is answered. *)
Lemma answered_script expertName s o latency response :
  accepted s = true ->
  multi_latency o = Some latency ->
  multi_reply o = Ok response ->
  exists ub : builder,
    (forall now, role (ub now) = Types.user /\ content (ub now) = trim (message s)
                 /\ timestamp (ub now) = now)
    /\ App.sendMessage expertName s o
       = Do (setMessage EmptyString) :: Do (setIsSending true) :: Do (append ub)
         :: Call MultiEndpoint (Some latency) :: revealed response ++ [Do (setIsSending false)].
Proof.
  unfold accepted, App.sendMessage, sendMessageWithMultiResponse. intros Hacc Hlat Hreply.
  destruct (trim (message s)) as [|c text]; [done|].
  destruct (currentChat s) as [chat|]; [|done].
  destruct (isSending s); [done|].
  rewrite Hlat, Hreply. eexists. split; [|reflexivity]. by intros now.
Qed.

Lemma completion_revealed response t :
  exists t', completion t (revealed response) = Some t'.
Proof.
  unfold revealed. destruct (success response && data_isMultiMessage (data response)).
  - apply completion_reveal_some.
  - destruct (data_messages (data response)); [by eexists|].
    rewrite completion_display. by eexists.
Qed.

Lemma appended_revealed response t :
  appended (timeline t (revealed response)) = shown response.
Proof.
  unfold revealed, shown.
  destruct (success response && data_isMultiMessage (data response)).
  - apply appended_reveal_from.
  - destruct (data_messages (data response)); [done|]. apply appended_display.
Qed.

(** X6. What a turn leaves in the store when the multi-message call is
    answered (the turn running undisturbed): the messages that were
    there, the user message, and then the whole batch when the answer has
    [success] and [isMultiMessage] set, but only the first message of the
    batch otherwise; the indicator is down at the end. *)
Theorem answered_turn_store (expertName : string) (s : state) (o : oracle) (t latency : Z)
    (response : multi_response) :
  accepted s = true ->
  multi_latency o = Some latency ->
  multi_reply o = Ok response ->
  exists userMessage,
    messages (apply_all (timeline t (App.sendMessage expertName s o)) s)
    = messages s ++ userMessage :: shown response
    /\ role userMessage = Types.user
    /\ content userMessage = trim (message s)
    /\ timestamp userMessage = t
    /\ isSending (apply_all (timeline t (App.sendMessage expertName s o)) s) = false.
Proof.
  intros Hacc Hlat Hreply.
  destruct (answered_script expertName s o latency response Hacc Hlat Hreply)
    as (ub & Hub & ->).
  destruct (completion_revealed response (t + delay latency)) as [t' Ht'].
  exists (ub t). destruct (Hub t) as (Hrole & Hcontent & Htime).
  rewrite messages_apply_all. cbn [timeline]. rewrite timeline_app, Ht'.
  cbn [from_option timeline].
  split; [|split; [done|split; [done|split; [done|]]]].
  - change (appended ((t, setMessage EmptyString) :: (t, setIsSending true)
                      :: (t, append ub) :: ?tl))
      with (ub t :: appended tl).
    rewrite appended_app, appended_revealed. simpl. by rewrite app_nil_r.
  - rewrite !app_comm_cons, apply_all_app. reflexivity.
Qed.

Lemma answered_turn_store_witness :
  let s := typed "hi" (ready demoChat (Some "u1") false []) in
  exists userMessage,
    messages (apply_all (timeline 0 (App.sendMessage "Priya" s (demoOracle "hi" 0))) s)
    = messages s
      ++ userMessage
         :: shown (demoMulti (chat_id demoChat) "priya" 0 (fun _ => 0))
    /\ role userMessage = Types.user
    /\ content userMessage = trim (message s)
    /\ timestamp userMessage = 0
    /\ isSending (apply_all (timeline 0 (App.sendMessage "Priya" s (demoOracle "hi" 0))) s)
       = false.
Proof.
  intros s.
  apply (answered_turn_store "Priya" s (demoOracle "hi" 0) 0 0
           (demoMulti (chat_id demoChat) "priya" 0 (fun _ => 0))); reflexivity.
Defined.

(** *** How long a reveal takes *)

Lemma total_typing_bounds ms :
  0 <= total_typing ms <= 3000 * Z.of_nat (length ms).
Proof.
  induction ms as [|m rest IH]; simpl; [lia|].
  pose proof (typingDelay_nonneg m). unfold typingDelay in *. lia.
Qed.

Lemma last_paced m rest : forall t,
  last (paced t (m :: rest))
  = Some (t + total_typing (m :: rest) + 1500 * Z.of_nat (length rest)).
Proof.
  revert m. induction rest as [|m' rest IH]; intros m t.
  - simpl. f_equal. lia.
  - change (paced t (m :: m' :: rest))
      with ((t + typingDelay m) :: paced (t + typingDelay m + 1500) (m' :: rest)).
    rewrite last_cons, IH. f_equal.
    change (total_typing (m :: m' :: rest))
      with (typingDelay m + total_typing (m' :: rest)).
    change (length (m' :: rest)) with (S (length rest)). lia.
Qed.

(** X7. A reveal of [n] fragments, running undisturbed, returns when it
    has served every typing delay and [n - 1] pauses of 1500 ms: between
    [1500 (n - 1)] and [3000 n + 1500 (n - 1)] ms after it started. *)
Theorem reveal_duration (m : Message) (rest : list Message) (t : Z) :
  completion t (reveal (m :: rest))
  = Some (t + total_typing (m :: rest) + 1500 * Z.of_nat (length rest))
  /\ 0 <= total_typing (m :: rest) <= 3000 * Z.of_nat (length (m :: rest)).
Proof.
  split; [|apply total_typing_bounds].
  unfold reveal.
  rewrite (completion_reveal_from (m :: rest) 0 (length (m :: rest)) t eq_refl).
  apply last_paced.
Qed.

Lemma demo_fragment_delay chatId agentId now n i r :
  take 4 demoResponses !! i = Some r ->
  typingDelay (demoMessage chatId agentId now n i r) = 3000.
Proof.
  intros Hi. do 4 (destruct i as [|i]; [injection Hi as <-; vm_compute; reflexivity|]).
  discriminate Hi.
Qed.

Lemma demo_batch_paced chatId agentId (random : Q) (now : clock) (t : Z) :
  drawn random ->
  paced t (data_messages (data (demoMulti chatId agentId random now)))
  = (fun i => t + 3000 + 4500 * Z.of_nat i) <$> seq 0 (numMessages random).
Proof.
  intros [H0 H1]. unfold demoMulti. cbn [data data_messages].
  destruct (numMessages_range random H0 H1) as [-> | [-> | ->]];
    cbn [take demoResponses imap paced seq fmap list_fmap];
    unfold compose; rewrite ?demo_fragment_delay by reflexivity;
    repeat (f_equal; try lia).
Qed.

(** X8. The batches of the Demo Responder are revealed at a fixed pace:
    each of its texts is long enough for the typing delay to be at its
    cap of 3000 ms, so fragment [i] (from 0) is appended [3000 + 4500 i]
    ms after the reveal starts, and the reveal of the N fragments returns
    after [4500 N - 1500] ms. *)
Theorem demo_batch_pacing chatId agentId (random : Q) (now : clock) (t : Z) :
  drawn random ->
  let ms := data_messages (data (demoMulti chatId agentId random now)) in
  append_times t (reveal ms)
  = (fun i => t + 3000 + 4500 * Z.of_nat i) <$> seq 0 (numMessages random)
  /\ completion t (reveal ms) = Some (t + 4500 * Z.of_nat (numMessages random) - 1500).
Proof.
  intros Hr ms. subst ms. rewrite append_times_reveal. unfold reveal.
  rewrite completion_reveal_from by done.
  rewrite demo_batch_paced by done. split; [done|].
  destruct Hr as [H0 H1]. unfold demoMulti. cbn [data data_messages].
  destruct (numMessages_range random H0 H1) as [-> | [-> | ->]];
    cbn [take demoResponses imap seq fmap list_fmap last]; f_equal; lia.
Qed.

Lemma demo_batch_pacing_witness :
  let ms := data_messages (data (demoMulti "demo-chat-1" "priya" (1 # 2) (fun _ => 0))) in
  append_times 0 (reveal ms)
  = (fun i => 0 + 3000 + 4500 * Z.of_nat i) <$> seq 0 (numMessages (1 # 2))
  /\ completion 0 (reveal ms) = Some (0 + 4500 * Z.of_nat (numMessages (1 # 2)) - 1500).
Proof.
  apply (demo_batch_pacing "demo-chat-1" "priya" (1 # 2) (fun _ => 0) 0).
  split; by compute.
Defined.

(** *** The single-message call *)

Lemma display_makes_no_call ep m o :
  Forall (fun a => ~ is_call ep a) (displayMessageWithTyping m o).
Proof.
  unfold displayMessageWithTyping.
  destruct (o_isFirst o), (o_isAdditional o); simpl;
    repeat constructor; by intros [l Hl].
Qed.

Lemma reveal_makes_no_call ep ms : forall start total,
  Forall (fun a => ~ is_call ep a) (reveal_from start total ms).
Proof.
  induction ms as [|m rest IH]; intros start total; [constructor|].
  rewrite reveal_from_cons, !Forall_app. split; [|split].
  - apply display_makes_no_call.
  - destruct (start <? total - 1)%nat; repeat constructor; by intros [l Hl].
  - apply IH.
Qed.

(** X9. In demo mode a turn never makes the single-message call
    [chatApi.sendMessage]; when its multi-message call fails, it sets the
    timer of the canned reply at once. *)
Theorem demo_mode_skips_single_call (expertName : string) (s : state) (o : oracle) :
  isDemoMode s = true ->
  Forall (fun a => ~ is_call SendEndpoint a) (App.sendMessage expertName s o)
  /\ (forall e chat, accepted s = true -> currentChat s = Some chat ->
        multi_reply o = Throw e ->
        exists before,
          App.sendMessage expertName s o
          = before ++ [Call MultiEndpoint (multi_latency o);
                       demoReply chat (getAgentId expertName) o;
                       Do (setIsSending false)]).
Proof.
  intros Hdemo. unfold accepted, App.sendMessage. rewrite Hdemo.
  destruct (trim (message s)) as [|c text]; [split; [constructor | by intros]|].
  destruct (currentChat s) as [chat|]; [|split; [constructor | by intros]].
  destruct (isSending s); [split; [constructor | by intros]|].
  unfold sendMessageWithMultiResponse. split.
  - repeat (apply Forall_cons; split; [by intros [l Hl]|]).
    apply Forall_app. split; [|repeat constructor; by intros [l Hl]].
    destruct (multi_reply o) as [response|e].
    + destruct (success response && data_isMultiMessage (data response)).
      * apply reveal_makes_no_call.
      * destruct (data_messages (data response)); [constructor|].
        apply display_makes_no_call.
    + simpl. repeat constructor; by intros [l Hl].
  - intros e chat' _ [= <-] ->. simpl.
    eexists [_; _; _]. reflexivity.
Qed.

Lemma demo_mode_skips_single_call_witness :
  let s := typed "hi" (ready backendChat (Some "u1") true []) in
  Forall (fun a => ~ is_call SendEndpoint a) (App.sendMessage "Priya" s offline)
  /\ (forall e chat, accepted s = true -> currentChat s = Some chat ->
        multi_reply offline = Throw e ->
        exists before,
          App.sendMessage "Priya" s offline
          = before ++ [Call MultiEndpoint (multi_latency offline);
                       demoReply chat (getAgentId "Priya") offline;
                       Do (setIsSending false)]).
Proof.
  intros s. apply (demo_mode_skips_single_call "Priya" s offline). reflexivity.
Defined.

(* ===================================================================== *)
(** ** Demo mode over a whole session *)
(* ===================================================================== *)

Lemma display_never_clears m o : Forall never_clears (displayMessageWithTyping m o).
Proof.
  unfold displayMessageWithTyping.
  destruct (o_isFirst o), (o_isAdditional o); simpl; repeat constructor; done.
Qed.

Lemma reveal_never_clears ms : forall start total,
  Forall never_clears (reveal_from start total ms).
Proof.
  induction ms as [|m rest IH]; intros start total; [constructor|].
  rewrite reveal_from_cons, !Forall_app. split; [|split].
  - apply display_never_clears.
  - destruct (start <? total - 1)%nat; repeat constructor; done.
  - apply IH.
Qed.

Lemma demoReply_never_clears chat agentId o : never_clears (demoReply chat agentId o).
Proof.
  simpl. intros [H|H]%elem_of_cons; [discriminate H | by apply elem_of_nil in H].
Qed.

Lemma sendMessage_never_clears expertName s o :
  Forall never_clears (App.sendMessage expertName s o).
Proof.
  unfold App.sendMessage.
  destruct (trim (message s)) as [|c text]; [constructor|].
  destruct (currentChat s) as [chat|]; [|constructor].
  destruct (isSending s); [constructor|].
  unfold sendMessageWithMultiResponse.
  repeat (apply Forall_cons; split; [done|]).
  apply Forall_app. split; [|repeat constructor; done].
  destruct (multi_reply o) as [response|e].
  - destruct (success response && data_isMultiMessage (data response)).
    + apply reveal_never_clears.
    + destruct (data_messages (data response)); [constructor|].
      apply display_never_clears.
  - unfold sendMessageFallback.
    destruct (negb (isDemoMode s));
      [|repeat constructor; apply demoReply_never_clears].
    apply Forall_cons. split; [done|].
    destruct (send_reply_of o) as [[r|ms n pm]|e2].
    + destruct (truthy (JStr (content r))); repeat constructor;
        first [done | apply demoReply_never_clears].
    + repeat constructor. apply demoReply_never_clears.
    + repeat constructor; first [done | apply demoReply_never_clears].
Qed.

Lemma callback_never_clears cb :
  setIsDemoMode false ∉ cb -> Forall never_clears (map Do cb).
Proof.
  induction cb as [|e cb IH]; intros Hcb; [constructor|].
  apply not_elem_of_cons in Hcb as [He Hcb].
  constructor; [simpl; congruence | by apply IH].
Qed.

Lemma enqueue_Forall (P : task -> Prop) tk q :
  P tk -> Forall P q -> Forall P (enqueue tk q).
Proof.
  intros Htk. induction 1 as [|x q Hx Hq IH]; simpl; [by repeat constructor|].
  destruct (wake x <=? wake tk); repeat constructor; done.
Qed.

Lemma apply_effect_sticky t e s :
  e <> setIsDemoMode false ->
  isDemoMode s = true -> isDemoMode (apply_effect t e s) = true.
Proof. destruct e as [x|b|[|]|mk]; simpl; done. Qed.

Lemma run_segment_sticky who sc : forall w,
  Forall never_clears sc ->
  Forall harmless (queue w) ->
  Forall harmless (queue (run_segment who sc w))
  /\ (isDemoMode (component w) = true ->
      isDemoMode (component (run_segment who sc w)) = true).
Proof.
  induction sc as [|a sc IH]; intros w Hsc Hq; [done|].
  apply Forall_cons in Hsc as [Ha Hsc].
  destruct a as [e|ms|ep [latency|]|ms cb]; simpl.
  - destruct (IH {| now := now w; component := apply_effect (now w) e (component w);
                    queue := queue w;
                    trace := trace w ++ [{| ev_time := now w; ev_owner := who;
                                            ev_effect := e |}] |} Hsc Hq) as [IHq IHf].
    split; [exact IHq|]. intros Hf. apply IHf. simpl. by apply apply_effect_sticky.
  - split; [|done]. by apply enqueue_Forall.
  - split; [|done]. by apply enqueue_Forall.
  - done.
  - match goal with
    | |- context [run_segment who sc ?w'] => apply (IH w'); [done|]
    end.
    simpl. apply enqueue_Forall; [|done].
    by apply callback_never_clears.
Qed.

Lemma step_sticky expertName w w' :
  step expertName w = Some w' ->
  Forall harmless (queue w) ->
  Forall harmless (queue w')
  /\ (isDemoMode (component w) = true -> isDemoMode (component w') = true).
Proof.
  unfold step. destruct (queue w) as [|tk rest] eqn:Hq; [done|].
  intros Hstep [Htk Hrest]%Forall_cons.
  destruct (script_of expertName (todo tk) (component w)) as [s sc] eqn:Hsc.
  injection Hstep as <-.
  assert (Hs : Forall never_clears sc /\ isDemoMode s = isDemoMode (component w)).
  { unfold script_of in Hsc. unfold harmless in Htk.
    destruct (todo tk) as [r|text o].
    - by injection Hsc as <- <-.
    - destruct (isSending (component w)); injection Hsc as <- <-;
        [by split; [constructor|] | split; [apply sendMessage_never_clears | done]]. }
  destruct Hs as [Hnc Hflag].
  destruct (run_segment_sticky (owner tk) sc
              {| now := Z.max (now w) (wake tk); component := s; queue := rest;
                 trace := trace w |} Hnc Hrest) as [Hq' Hf'].
  split; [exact Hq'|]. intros Hf. apply Hf'. simpl. by rewrite Hflag.
Qed.

Lemma run_sticky expertName n : forall w,
  Forall harmless (queue w) ->
  Forall harmless (queue (run expertName n w))
  /\ (isDemoMode (component w) = true ->
      isDemoMode (component (run expertName n w)) = true).
Proof.
  induction n as [|n IH]; intros w Hq; [done|]. simpl.
  destruct (step expertName w) as [w'|] eqn:Hstep; [|done].
  destruct (step_sticky expertName w w' Hstep Hq) as [Hq' Hf'].
  destruct (IH w' Hq') as [Hq'' Hf'']. split; [done|]. intros Hf. by apply Hf'', Hf'.
Qed.

Lemma run_add expertName n k : forall w,
  run expertName (n + k) w = run expertName k (run expertName n w).
Proof.
  induction n as [|n IH]; intros w; [done|]. simpl.
  destruct (step expertName w) as [w'|] eqn:Hstep; [apply IH|].
  destruct k as [|k]; [done|]. simpl. by rewrite Hstep.
Qed.

Lemma start_harmless s q : only_submits q -> Forall harmless (queue (start s q)).
Proof.
  unfold start. simpl. induction 1 as [|tk q (text & o & Htk) Hq IH]; simpl; [constructor|].
  apply enqueue_Forall; [|done]. unfold harmless. by rewrite Htk.
Qed.

(** X10. Demo mode is never left: in every run of the event loop, once
    the demo-mode flag of the session is set it is set at every later
    point, whatever turns are submitted and however the gateway answers
    them. *)
Theorem demo_mode_is_never_left (expertName : string) (s : state) (q : list task)
    (n k : nat) :
  only_submits q ->
  isDemoMode (component (run expertName n (start s q))) = true ->
  isDemoMode (component (run expertName (n + k) (start s q))) = true.
Proof.
  intros Hq Hn. rewrite run_add.
  destruct (run_sticky expertName n (start s q) (start_harmless s q Hq)) as [Hharmless _].
  by apply (run_sticky expertName k _ Hharmless).
Qed.

Lemma demo_mode_is_never_left_witness :
  let q := [ {| wake := 0; owner := 0; todo := Submit "hi" offline |};
             {| wake := 9000; owner := 1; todo := Submit "again" hung |} ] in
  isDemoMode (component (run "Priya" (3 + 4) (start (ready backendChat (Some "u1") false []) q)))
  = true.
Proof.
  intros q.
  apply (demo_mode_is_never_left "Priya" (ready backendChat (Some "u1") false []) q 3 4).
  - repeat constructor; simpl; eauto.
  - vm_compute. reflexivity.
Defined.

(* ===================================================================== *)
(** ** The canned reply, end to end *)
(* ===================================================================== *)







(* ===================================================================== *)
(** ** What the fallback makes of the single-message call *)
(* ===================================================================== *)

(** X12. When the multi-message call has failed outside demo mode and
    the single-message call is answered, the session does not enter demo
    mode, and the turn appends two messages, the user message and one
    reply.  The reply carries the content of the answer only when the answer is a message with a non-empty content, and then
    no timer is set; an answer with an empty content, and every answer
    of the multi-message shape, is discarded for a canned text of
    [getPriyaResponse], set on the timer of the demo reply. *)
Theorem single_call_answer_decides (expertName : string) (s : state) (o : oracle)
    (e : error) (chat : Chat) (answer : send_reply) :
  accepted s = true ->
  currentChat s = Some chat ->
  isDemoMode s = false ->
  multi_reply o = Throw e ->
  send_reply_of o = Ok answer ->
  Forall keeps_demo_flag (App.sendMessage expertName s o)
  /\ exists ub reply : builder,
       builders (App.sendMessage expertName s o) = [ub; reply]
       /\ (forall now, role (ub now) = Types.user /\ role (reply now) = assistant
                       /\ chatId (reply now) = chat_id chat)
       /\ match usable answer with
          | Some r =>
              Forall sets_no_timer (App.sendMessage expertName s o)
              /\ forall now, content (reply now) = content r
          | None =>
              demoReply chat (getAgentId expertName) o ∈ App.sendMessage expertName s o
              /\ forall now, content (reply now) = getPriyaResponse (random_pick o)
                             /\ timestamp (reply now) = now
          end.
Proof.
  unfold accepted, App.sendMessage. intros Hacc Hchat Hdemo Hmulti Hsend.
  rewrite Hchat in *.
  destruct (trim (message s)) as [|c text]; [done|].
  destruct (isSending s); [done|].
  unfold sendMessageWithMultiResponse, sendMessageFallback, usable.
  rewrite Hmulti, Hdemo, Hsend. cbn [negb].
  destruct answer as [r|ms n pm]; [destruct (truthy (JStr (content r)))|].
  - split; [repeat constructor; done|]. do 2 eexists.
    split; [reflexivity|]. split; [done|]. split; [repeat constructor; done | done].
  - split; [repeat constructor; done|]. do 2 eexists.
    split; [reflexivity|]. split; [done|].
    split; [|done]. simpl. rewrite !elem_of_cons. auto 10.
  - split; [repeat constructor; done|]. do 2 eexists.
    split; [reflexivity|]. split; [done|].
    split; [|done]. simpl. rewrite !elem_of_cons. auto 10.
Qed.

Lemma single_call_answer_decides_witness :
  let s := typed "hi" (ready backendChat (Some "u1") false []) in
  let o := {| multi_latency := Some 20;
              multi_reply := Throw (NetworkError "Failed to fetch");
              send_latency := Some 20;
              send_reply_of := Ok (ReplyMulti ["a"; "b"] 2 (fragment 1 2 "a"));
              random_delay := 0; random_pick := 0 |} in
  Forall keeps_demo_flag (App.sendMessage "Priya" s o)
  /\ exists ub reply : builder,
       builders (App.sendMessage "Priya" s o) = [ub; reply]
       /\ (forall now, role (ub now) = Types.user /\ role (reply now) = assistant
                       /\ chatId (reply now) = chat_id backendChat)
       /\ match usable (ReplyMulti ["a"; "b"] 2 (fragment 1 2 "a")) with
          | Some r =>
              Forall sets_no_timer (App.sendMessage "Priya" s o)
              /\ forall now, content (reply now) = content r
          | None =>
              demoReply backendChat (getAgentId "Priya") o ∈ App.sendMessage "Priya" s o
              /\ forall now, content (reply now) = getPriyaResponse (random_pick o)
                             /\ timestamp (reply now) = now
          end.
Proof.
  intros s o.
  apply (single_call_answer_decides "Priya" s o (NetworkError "Failed to fetch") backendChat
           (ReplyMulti ["a"; "b"] 2 (fragment 1 2 "a"))); reflexivity.
Defined.

(* ===================================================================== *)
(** ** A turn in a demo chat, from the gateway to the store *)
(* ===================================================================== *)

Lemma demoMulti_contents chatId agentId (random : Q) (now : clock) :
  content <$> data_messages (data (demoMulti chatId agentId random now))
  = take (numMessages random) demoResponses.
Proof.
  unfold demoMulti. cbn [data data_messages].
  generalize (numMessages random) at 1. intros n.
  generalize (take (numMessages random) demoResponses). intros l.
  change (content <$> imap (demoMessage chatId agentId now n) l = l).
  assert (H : forall k, content <$> imap (fun i => demoMessage chatId agentId now n (k + i)) l = l).
  { induction l as [|r l IH]; intros k; [done|]. simpl. f_equal.
    rewrite <- (IH (S k)) at 2. f_equal. apply imap_ext. intros i x _. simpl.
    f_equal. lia. }
  apply (H 0%nat).
Qed.

Lemma demoMulti_assistant (cid agentId : string) (random : Q) (now : clock) :
  Forall (fun m => role m = assistant /\ chatId m = cid)
    (data_messages (data (demoMulti cid agentId random now))).
Proof.
  apply Forall_lookup. intros i m Hm.
  by apply demoMulti_lookup in Hm as (response & _ & ->).
Qed.

(** X13. A turn in a demo chat, from the gateway to the store.  When the
    chat's id starts with [demo-chat-], the multi-message call is answered
    by the Demo Responder whatever token is stored and whatever the
    backend would do; the turn then appends the user message at once and
    the first N canned texts, N = 2, 3 or 4, as assistant messages of the
    chat, fragment [i] at [3000 + 4500 i] ms after the answer; it never
    makes the single-message call and leaves the demo-mode flag as it
    was, with the indicator down at the end. *)
Theorem demo_chat_turn (expertName : string) (s : state) (o : oracle) (chat : Chat)
    (token : option string) (random : Q) (clock : Types.clock)
    (backend : outcome multi_response) (t latency : Z) :
  accepted s = true ->
  currentChat s = Some chat ->
  startsWith "demo-chat-" (chat_id chat) = true ->
  multi_latency o = Some latency ->
  multi_reply o
  = sendMessageMulti token (chat_id chat) (trim (message s)) (getAgentId expertName)
      random clock backend ->
  drawn random ->
  exists (userMessage : Message) (batch : list Message),
    messages (apply_all (timeline t (App.sendMessage expertName s o)) s)
    = messages s ++ userMessage :: batch
    /\ content userMessage = trim (message s)
    /\ content <$> batch = take (numMessages random) demoResponses
    /\ (numMessages random = 2 \/ numMessages random = 3 \/ numMessages random = 4)%nat
    /\ Forall (fun m => role m = assistant /\ chatId m = chat_id chat) batch
    /\ append_times t (App.sendMessage expertName s o)
       = t :: ((fun i => t + delay latency + 3000 + 4500 * Z.of_nat i)
               <$> seq 0 (numMessages random))
    /\ Forall (fun a => ~ is_call SendEndpoint a) (App.sendMessage expertName s o)
    /\ isDemoMode (apply_all (timeline t (App.sendMessage expertName s o)) s) = isDemoMode s
    /\ isSending (apply_all (timeline t (App.sendMessage expertName s o)) s) = false.
Proof.
  intros Hacc Hchat Hid Hlat Hreply Hrandom.
  unfold sendMessageMulti, demo_mode in Hreply. rewrite Hid, orb_true_r in Hreply.
  set (response := demoMulti (chat_id chat) (getAgentId expertName) random clock) in *.
  destruct (answered_script expertName s o latency response Hacc Hlat Hreply)
    as (ub & Hub & ->).
  assert (Hrevealed : revealed response = reveal (data_messages (data response))) by done.
  rewrite Hrevealed.
  destruct (completion_reveal_some (data_messages (data response)) 0
              (length (data_messages (data response))) (t + delay latency)) as [t' Ht'].
  fold (reveal (data_messages (data response))) in Ht'.
  exists (ub t), (data_messages (data response)).
  destruct (Hub t) as (Hrole & Hcontent & Htime).
  split; [|split; [done|split; [apply demoMulti_contents|split;
    [destruct Hrandom; by apply numMessages_range|split;
    [apply demoMulti_assistant|split; [|split; [|split]]]]]]].
  - rewrite messages_apply_all. cbn [timeline]. rewrite timeline_app, Ht'.
    cbn [from_option timeline].
    change (appended ((t, setMessage EmptyString) :: (t, setIsSending true)
                      :: (t, append ub) :: ?tl))
      with (ub t :: appended tl).
    unfold reveal. rewrite appended_app, appended_reveal_from. simpl.
    by rewrite app_nil_r.
  - change (append_times t (Do (setMessage EmptyString) :: Do (setIsSending true)
                            :: Do (append ub) :: Call MultiEndpoint (Some latency) :: ?rest))
      with (t :: append_times (t + delay latency) rest).
    f_equal. rewrite append_times_app, append_times_reveal, Ht'. simpl.
    rewrite app_nil_r. by apply demo_batch_paced.
  - repeat (apply Forall_cons; split; [by intros [l Hl]|]).
    apply Forall_app. split; [apply reveal_makes_no_call|].
    repeat constructor. by intros [l Hl].
  - apply demo_flag_kept.
    repeat (apply Forall_cons; split; [done|]).
    apply Forall_app. split; [apply reveal_keeps_demo_flag | repeat constructor; done].
  - cbn [timeline]. rewrite timeline_app, Ht'.
    cbn [from_option timeline]. rewrite !app_comm_cons, apply_all_app. reflexivity.
Qed.

Lemma demo_chat_turn_witness :
  let s := typed "hi" (ready demoChat (Some "u1") false []) in
  let o := demoOracle "hi" 0 in
  exists (userMessage : Message) (batch : list Message),
    messages (apply_all (timeline 0 (App.sendMessage "Priya" s o)) s)
    = messages s ++ userMessage :: batch
    /\ content userMessage = trim (message s)
    /\ content <$> batch = take (numMessages 0) demoResponses
    /\ (numMessages 0 = 2 \/ numMessages 0 = 3 \/ numMessages 0 = 4)%nat
    /\ Forall (fun m => role m = assistant /\ chatId m = chat_id demoChat) batch
    /\ append_times 0 (App.sendMessage "Priya" s o)
       = 0 :: ((fun i => 0 + delay 0 + 3000 + 4500 * Z.of_nat i) <$> seq 0 (numMessages 0))
    /\ Forall (fun a => ~ is_call SendEndpoint a) (App.sendMessage "Priya" s o)
    /\ isDemoMode (apply_all (timeline 0 (App.sendMessage "Priya" s o)) s) = isDemoMode s
    /\ isSending (apply_all (timeline 0 (App.sendMessage "Priya" s o)) s) = false.
Proof.
  intros s o.
  apply (demo_chat_turn "Priya" s o demoChat None 0 (fun _ => 0)
           (Throw (NetworkError "unreachable")) 0 0); try reflexivity.
  split; by compute.
Defined.

(* ===================================================================== *)
(** ** When [sendMessage] returns *)
(* ===================================================================== *)

(** X14. [chatApi.sendMessage] returns exactly when the demo branch is
    taken or the reply is ok and its body is JSON other than the bodies
    described by [unreadable]; a reply that is not ok raises the
    [ApiError] with the status of the reply and a message that is never
    empty, and a rejected [fetch] raises its own error. *)
Theorem sendMessage_returns_exactly_when (token : option string)
    (chatId content agentId : string) (now : clock) (response : http_response) :
  ((exists r, chatApi.sendMessage token chatId content agentId now response = Ok r)
   <-> demo_mode token chatId = true
       \/ exists status text result,
            response = Response true status text (Some result)
            /\ unreadable result = false)
  /\ (demo_mode token chatId = false ->
      match response with
      | FetchRejects msg =>
          chatApi.sendMessage token chatId content agentId now response
          = Throw (NetworkError msg)
      | Response false status text _ =>
          exists message,
            chatApi.sendMessage token chatId content agentId now response
            = Throw (ApiError status message)
            /\ message <> EmptyString
            /\ (text <> EmptyString -> message = text)
      | Response true _ _ None =>
          chatApi.sendMessage token chatId content agentId now response = Throw SyntaxError
      | Response true _ _ (Some result) =>
          unreadable result = true ->
          chatApi.sendMessage token chatId content agentId now response = Throw TypeError
      end).
Proof.
  unfold chatApi.sendMessage.
  destruct (demo_mode token chatId) eqn:Hdemo.
  - split; [|done]. split; [by left | by eexists].
  - split.
    + split.
      * intros [r Hr]. right.
        destruct response as [msg|[|] status text [result|]]; try done.
        exists status, text, result. split; [done|].
        pose proof (normalize_spec chatId agentId now result) as Hn.
        rewrite Hr in Hn. by destruct Hn.
      * intros [Hd | (status & text & result & -> & Hread)]; [done|].
        pose proof (normalize_spec chatId agentId now result) as Hn.
        destruct (normalize chatId agentId now result) as [r|e]; [by eexists|].
        destruct Hn as [Hn _]. by rewrite Hread in Hn.
    + intros _. destruct response as [msg|[|] status text [result|]]; try done.
      * intros Hread.
        pose proof (normalize_spec chatId agentId now result) as Hn.
        destruct (normalize chatId agentId now result) as [r|e].
        -- destruct Hn as [Hn _]. by rewrite Hread in Hn.
        -- by destruct Hn as [_ ->].
      * eexists. split; [reflexivity|]. by destruct text.
      * eexists. split; [reflexivity|]. by destruct text.
Qed.

Lemma sendMessage_returns_exactly_when_witness :
  ((exists r,
      chatApi.sendMessage None "chat-7" "hi" "priya" (fun _ => 0)
        (Response false 503 EmptyString None) = Ok r)
   <-> demo_mode None "chat-7" = true
       \/ exists status text result,
            Response false 503 EmptyString None = Response true status text (Some result)
            /\ unreadable result = false)
  /\ exists message,
       chatApi.sendMessage None "chat-7" "hi" "priya" (fun _ => 0)
         (Response false 503 EmptyString None)
       = Throw (ApiError 503 message)
       /\ message <> EmptyString
       /\ (EmptyString <> EmptyString -> message = EmptyString).
Proof.
  destruct (sendMessage_returns_exactly_when None "chat-7" "hi" "priya" (fun _ => 0)
              (Response false 503 EmptyString None)) as [Hiff Herr].
  split; [exact Hiff|]. apply Herr. reflexivity.
Defined.

(* ===================================================================== *)
(** ** Demo chats and demo tokens *)
(* ===================================================================== *)

Lemma startsWith_app (p s : string) : startsWith p (p +:+ s) = true.
Proof.
  induction p as [|a p IH]; [done|]. simpl. by rewrite Ascii.eqb_refl, IH.
Qed.

Lemma demo_chat_id_served token suffix :
  demo_mode token ("demo-chat-" +:+ suffix) = true.
Proof. unfold demo_mode. by rewrite startsWith_app, orb_true_r. Qed.

Lemma demo_token_served suffix chatId :
  demo_mode (Some ("demo-token-" +:+ suffix)) chatId = true.
Proof. unfold demo_mode. by rewrite startsWith_app. Qed.

Lemma fallback_chat_served token uid agentId now :
  demo_mode token (chat_id (Session.fallbackChat uid agentId now)) = true.
Proof. apply demo_chat_id_served. Qed.

Lemma demo_chat_served token agentId now :
  demo_mode token (chat_id (Backend.demoChat agentId now)) = true.
Proof. apply demo_chat_id_served. Qed.

(** X15. When [createChat] fails while the chat is opened, the session
    gets a chat of its own making and enters demo mode, and for that chat
    the gateway never talks to the backend again: whatever token is stored
    and whatever the backend would answer, [sendMessageMulti] returns the
    batch of the Demo Responder and [sendMessage] its simulated message. *)
Theorem failed_creation_opens_demo_chat (expertName uid : string) (e : Backend.thrown)
    (now : clock) (v : Session.view) :
  user (Session.st v) = Some uid ->
  let v' := Session.initializeChat expertName (Some (Backend.Raises e)) now v in
  exists chat,
    currentChat (Session.st v') = Some chat
    /\ isDemoMode (Session.st v') = true
    /\ Session.isLoading v' = false
    /\ messages (Session.st v') = [Session.welcomeMessage chat (getAgentId expertName) now 3]
    /\ (forall token content agentId random clock backend,
          sendMessageMulti token (chat_id chat) content agentId random clock backend
          = Ok (demoMulti (chat_id chat) agentId random clock))
    /\ (forall token content agentId clock response,
          chatApi.sendMessage token (chat_id chat) content agentId clock response
          = Ok (Single (demoUserMessage (chat_id chat) content agentId clock))).
Proof.
  intros Huser v'. subst v'. unfold Session.initializeChat. rewrite Huser.
  exists (Session.fallbackChat uid (getAgentId expertName) now).
  split; [reflexivity|]. split; [reflexivity|]. split; [reflexivity|].
  split; [reflexivity|]. split.
  - intros. unfold sendMessageMulti. by rewrite fallback_chat_served.
  - intros. unfold chatApi.sendMessage. by rewrite fallback_chat_served.
Qed.

Lemma failed_creation_opens_demo_chat_witness :
  let v' := Session.initializeChat "Priya"
              (Some (Backend.Raises (Backend.FetchFailed "Failed to fetch")))
              (fun k => 1000 + Z.of_nat k) (Session.initial (Some "u1")) in
  exists chat,
    currentChat (Session.st v') = Some chat
    /\ isDemoMode (Session.st v') = true
    /\ Session.isLoading v' = false
    /\ messages (Session.st v')
       = [Session.welcomeMessage chat (getAgentId "Priya") (fun k => 1000 + Z.of_nat k) 3]
    /\ (forall token content agentId random clock backend,
          sendMessageMulti token (chat_id chat) content agentId random clock backend
          = Ok (demoMulti (chat_id chat) agentId random clock))
    /\ (forall token content agentId clock response,
          chatApi.sendMessage token (chat_id chat) content agentId clock response
          = Ok (Single (demoUserMessage (chat_id chat) content agentId clock))).
Proof.
  apply (failed_creation_opens_demo_chat "Priya" "u1"
           (Backend.FetchFailed "Failed to fetch") (fun k => 1000 + Z.of_nat k)
           (Session.initial (Some "u1"))).
  reflexivity.
Defined.

(** X16. With a demo token stored, [createChat] makes no request: it
    returns a chat of its own making whatever the backend would answer.
    That chat stays a demo chat when the token is replaced afterwards:
    the gateway answers its messages itself under every token. *)
Theorem demo_token_creates_demo_chat (token agentId : string) (now : clock)
    (f : Backend.fetched Chat) :
  startsWith "demo-token-" token = true ->
  Backend.createChat (Some token) agentId now f = Backend.Returns (Backend.demoChat agentId now)
  /\ (forall token' content agentId' random clock backend,
        sendMessageMulti token' (chat_id (Backend.demoChat agentId now)) content agentId'
          random clock backend
        = Ok (demoMulti (chat_id (Backend.demoChat agentId now)) agentId' random clock))
  /\ (forall token' content agentId' clock response,
        chatApi.sendMessage token' (chat_id (Backend.demoChat agentId now)) content agentId'
          clock response
        = Ok (Single (demoUserMessage (chat_id (Backend.demoChat agentId now)) content
                        agentId' clock))).
Proof.
  intros Htoken. unfold Backend.createChat. rewrite Htoken. split; [done|]. split.
  - intros. unfold sendMessageMulti. by rewrite demo_chat_served.
  - intros. unfold chatApi.sendMessage. by rewrite demo_chat_served.
Qed.

Lemma demo_token_creates_demo_chat_witness :
  Backend.createChat (Some "demo-token-17") "priya" (fun _ => 5)
    (Backend.FetchRejected "Failed to fetch")
  = Backend.Returns (Backend.demoChat "priya" (fun _ => 5))
  /\ (forall token' content agentId' random clock backend,
        sendMessageMulti token' (chat_id (Backend.demoChat "priya" (fun _ => 5))) content
          agentId' random clock backend
        = Ok (demoMulti (chat_id (Backend.demoChat "priya" (fun _ => 5))) agentId' random
                clock))
  /\ (forall token' content agentId' clock response,
        chatApi.sendMessage token' (chat_id (Backend.demoChat "priya" (fun _ => 5))) content
          agentId' clock response
        = Ok (Single (demoUserMessage (chat_id (Backend.demoChat "priya" (fun _ => 5)))
                        content agentId' clock))).
Proof.
  apply (demo_token_creates_demo_chat "demo-token-17" "priya" (fun _ => 5)
           (Backend.FetchRejected "Failed to fetch")).
  reflexivity.
Defined.

(* ===================================================================== *)
(** ** The session and the stored token *)
(* ===================================================================== *)

Section SessionFacts.
Variable JSON_stringify : Auth.User -> string.
Variable JSON_parse : string -> option Auth.User.

(** X17. [logout] forgets the user but leaves the auth token in the
    store: after it the requests carry the same headers as before, the
    gateway is in demo mode for the same chats as before, and a reload of
    the page finds no user. *)
Theorem logout_keeps_token (a : Auth.auth) :
  Auth.auth_user (Auth.logout a) = None
  /\ Auth.localStorage (Auth.logout a) !! "authToken" = Auth.localStorage a !! "authToken"
  /\ Backend.getAuthHeaders (Auth.localStorage (Auth.logout a))
     = Backend.getAuthHeaders (Auth.localStorage a)
  /\ (forall chatId,
        demo_mode (Auth.localStorage (Auth.logout a) !! "authToken") chatId
        = demo_mode (Auth.localStorage a !! "authToken") chatId)
  /\ Auth.auth_user (Auth.reload JSON_parse (Auth.logout a)) = None.
Proof.
  assert (Htoken : Auth.localStorage (Auth.logout a) !! "authToken"
                   = Auth.localStorage a !! "authToken").
  { unfold Auth.logout. simpl. by rewrite lookup_delete_ne. }
  split; [done|]. split; [exact Htoken|]. split; [|split].
  - unfold Backend.getAuthHeaders. by rewrite Htoken.
  - intros chatId. by rewrite Htoken.
  - unfold Auth.reload, Auth.checkAuthStatus, Auth.logout. simpl.
    by rewrite lookup_delete_eq.
Qed.

(** X18. After [demoLogin] the whole gateway is in demo mode, whatever
    was stored before: [createChat] returns its demo chat without a
    request, [sendMessageMulti] the batch of the Demo Responder and
    [sendMessage] its simulated message, for every chat; and a reload of
    the page reads the user back from the store. *)
Theorem demo_login_switches_gateway (now : clock) (a : Auth.auth) :
  let a' := Auth.demoLogin JSON_stringify now a in
  let token := Auth.localStorage a' !! "authToken" in
  Auth.auth_user a' = Some (Auth.demoUser now)
  /\ (forall agentId clock f,
        Backend.createChat token agentId clock f
        = Backend.Returns (Backend.demoChat agentId clock))
  /\ (forall chatId content agentId random clock backend,
        sendMessageMulti token chatId content agentId random clock backend
        = Ok (demoMulti chatId agentId random clock))
  /\ (forall chatId content agentId clock response,
        chatApi.sendMessage token chatId content agentId clock response
        = Ok (Single (demoUserMessage chatId content agentId clock)))
  /\ (JSON_stringify (Auth.demoUser now) <> EmptyString ->
      Auth.auth_user (Auth.reload JSON_parse a')
      = JSON_parse (JSON_stringify (Auth.demoUser now))).
Proof.
  intros a' token.
  assert (Htoken : token = Some ("demo-token-" +:+ pretty (now 3%nat))).
  { subst token a'. unfold Auth.demoLogin. simpl. by rewrite lookup_insert_eq. }
  rewrite Htoken. split; [done|]. split; [|split; [|split]].
  - intros. unfold Backend.createChat. by rewrite startsWith_app.
  - intros. unfold sendMessageMulti. by rewrite demo_token_served.
  - intros. unfold chatApi.sendMessage. by rewrite demo_token_served.
  - intros Hne. subst a'. unfold Auth.reload, Auth.checkAuthStatus, Auth.demoLogin. simpl.
    rewrite lookup_insert_ne by done. rewrite lookup_insert_eq.
    destruct (JSON_stringify (Auth.demoUser now)) as [|c r]; [done|].
    by destruct (JSON_parse (String c r)).
Qed.

End SessionFacts.

(* ===================================================================== *)
(** ** The debug panels *)
(* ===================================================================== *)

(** X19. The backend message tester never reaches the backend: it
    overwrites the stored token with a demo token, so whatever was stored
    and whatever the backend would answer, it reports success with the
    simulated message of the demo branch, which echoes the test message,
    no multi-message and a count of 1; and it leaves the whole gateway in
    demo mode. *)
Theorem tester_never_reaches_backend (localStorage : gmap string string)
    (testMessage : string) (now : Z) (clock : Types.clock) (response : http_response) :
  let '(stored, report) :=
    Testers.testBackendMessage localStorage testMessage now clock response in
  report
  = Testers.Passed
      (Single (demoUserMessage "test-chat-multi-message" testMessage "priya" clock)) false 1
  /\ stored !! "authToken" = Some ("demo-token-" +:+ pretty now)
  /\ (forall chatId, demo_mode (stored !! "authToken") chatId = true).
Proof.
  unfold Testers.testBackendMessage. rewrite lookup_insert_eq.
  unfold chatApi.sendMessage. rewrite demo_token_served.
  split; [done|]. split; [done|]. intros chatId. apply demo_token_served.
Qed.

Lemma runAll_snoc settling test :
  Testers.runAll (settling ++ [test])
  = Testers.runTest test.1 test.2 (Testers.runAll settling).
Proof. unfold Testers.runAll. by rewrite foldl_app. Qed.

Lemma runAll_lookup settling : forall name,
  Testers.runAll settling !! name
  = snd <$> last (filter (fun test => test.1 = name) settling).
Proof.
  induction settling as [|test settling IH] using rev_ind; intros name; [done|].
  rewrite runAll_snoc, filter_app. unfold Testers.runTest.
  destruct (decide (test.1 = name)) as [<-|Hne].
  - rewrite lookup_insert_eq, filter_cons_True, filter_nil by done.
    by rewrite last_snoc.
  - rewrite lookup_insert_ne by done.
    rewrite filter_cons_False, filter_nil, app_nil_r by done. apply IH.
Qed.

Lemma filter_absent (name : string) (l : list (string * Testers.test_result)) :
  name ∉ l.*1 -> filter (fun test => test.1 = name) l = [].
Proof.
  induction l as [|[k x] l IH]; [done|]. simpl.
  intros [Hk Hl]%not_elem_of_cons.
  rewrite filter_cons_False by (simpl; congruence). by apply IH.
Qed.

(** X20. [Run All Tests]: each test writes its own entry and leaves the
    others alone, so when every started test has settled the panel shows
    for each test its own result, whatever the order in which the tests
    settled; a test that has not settled shows as pending. *)
Theorem run_all_shows_each_result (settling settling' : list (string * Testers.test_result)) :
  NoDup settling.*1 ->
  settling ≡ₚ settling' ->
  Testers.runAll settling' = Testers.runAll settling
  /\ (forall name r, (name, r) ∈ settling -> Testers.runAll settling !! name = Some r)
  /\ (forall name, name ∉ settling.*1 ->
        Testers.getStatus name (Testers.runAll settling) = "pending").
Proof.
  intros Hnodup Hperm.
  assert (Hone : forall l name r, NoDup l.*1 -> (name, r) ∈ l ->
                   Testers.runAll l !! name = Some r).
  { intros l name r Hl Hin. rewrite runAll_lookup.
    induction l as [|[k x] l IH]; [by apply elem_of_nil in Hin|].
    simpl in Hl. apply NoDup_cons in Hl as [Hk Hl].
    apply elem_of_cons in Hin as [[= <- <-]|Hin].
    - rewrite filter_cons_True by done. by rewrite (filter_absent name l Hk).
    - assert (Hne : k <> name).
      { intros ->. apply Hk. apply list_elem_of_fmap. by exists (name, r). }
      rewrite filter_cons_False by done. by apply IH. }
  assert (Hnone : forall l name, name ∉ l.*1 -> Testers.runAll l !! name = None).
  { intros l name Hout. by rewrite runAll_lookup, (filter_absent name l Hout). }
  split; [|split].
  - apply map_eq. intros name.
    destruct (Testers.runAll settling !! name) as [r|] eqn:Hr.
    + assert (Hin : (name, r) ∈ settling).
      { destruct (decide (name ∈ settling.*1)) as [Hk|Hk].
        - apply list_elem_of_fmap in Hk as ([k x] & Heq & Hin).
          simpl in Heq. subst name.
          rewrite (Hone settling k x Hnodup Hin) in Hr. by injection Hr as <-.
        - by rewrite (Hnone settling name Hk) in Hr. }
      apply (Hone settling'); [by rewrite <- Hperm | by rewrite <- Hperm].
    + apply Hnone. intros Hk. rewrite <- Hperm in Hk.
      apply list_elem_of_fmap in Hk as ([k x] & Heq & Hin).
      simpl in Heq. subst name.
      by rewrite (Hone settling k x Hnodup Hin) in Hr.
  - intros name r. by apply Hone.
  - intros name Hout. unfold Testers.getStatus. by rewrite (Hnone settling name Hout).
Qed.

Lemma run_all_shows_each_result_witness :
  let health := ("health", Testers.TestError "Failed to fetch") in
  let auth := ("auth", Testers.TestSuccess (JObj ∅)) in
  let chat := ("chat", Testers.TestError "Failed to fetch") in
  Testers.runAll [chat; health; auth] = Testers.runAll [health; auth; chat]
  /\ (forall name r, (name, r) ∈ [health; auth; chat] ->
        Testers.runAll [health; auth; chat] !! name = Some r)
  /\ (forall name, name ∉ [health; auth; chat].*1 ->
        Testers.getStatus name (Testers.runAll [health; auth; chat]) = "pending").
Proof.
  intros health auth chat.
  apply (run_all_shows_each_result [health; auth; chat] [chat; health; auth]).
  - by apply (bool_decide_unpack _).
  - by rewrite (Permutation_app_comm [health; auth] [chat]).
Defined.

(* ===================================================================== *)
(** ** The other operations of the gateway *)
(* ===================================================================== *)



(** X22. When the operations return.  [getChats] returns exactly on
    an ok reply with a readable body other than [null], with the [data]
    of the body or the empty list when there is none; [getChat] and
    [createChat] (without a demo token) return exactly when such a body
    has [data]; the operations that only await the reply return exactly
    on an ok reply with a readable body, whatever it holds. *)
Theorem operations_return_exactly_when :
  (forall f l,
      Backend.getChats f = Backend.Returns l
      <-> exists data, f = Backend.Fetched (Backend.IsOk (Some (Backend.WithData data)))
                       /\ l = default [] data)
  /\ (forall (ChatSession : Type) (f : Backend.fetched ChatSession) session,
        Backend.getChat f = Backend.Returns session
        <-> f = Backend.Fetched (Backend.IsOk (Some (Backend.WithData (Some session)))))
  /\ (forall agentId now f chat,
        Backend.createChat None agentId now f = Backend.Returns chat
        <-> f = Backend.Fetched (Backend.IsOk (Some (Backend.WithData (Some chat)))))
  /\ (forall (T : Type) (f : Backend.fetched T),
        Backend.acknowledge f = Backend.Returns tt
        <-> exists body, f = Backend.Fetched (Backend.IsOk (Some body))).
Proof.
  assert (Hnot : forall (T : Type) status errorBody (body : Backend.parsed T),
            Backend.handleResponse (Backend.NotOk status errorBody) <> Backend.Returns body).
  { intros T status errorBody body. unfold Backend.handleResponse.
    by destruct (prop (default (obj []) errorBody) "message"). }
  split; [|split; [|split]].
  - intros f l. unfold Backend.getChats, Backend.request. split.
    + destruct f as [msg|[status errorBody|[[|data]|]]]; try done.
      * intros H. exfalso.
        destruct (Backend.handleResponse (Backend.NotOk status errorBody)) eqn:Hr;
          [by apply Hnot in Hr | done].
      * intros [= <-]. eauto.
    + by intros (data & -> & ->).
  - intros ChatSession f session. unfold Backend.getChat, Backend.request. split.
    + destruct f as [msg|[status errorBody|[[|[data|]]|]]]; try done.
      * intros H. exfalso.
        destruct (Backend.handleResponse (Backend.NotOk status errorBody)) eqn:Hr;
          [by apply Hnot in Hr | done].
      * by intros [= <-].
    + by intros ->.
  - intros agentId now f chat. unfold Backend.createChat, Backend.request. split.
    + destruct f as [msg|[status errorBody|[[|[data|]]|]]]; try done.
      * intros H. exfalso.
        destruct (Backend.handleResponse (Backend.NotOk status errorBody)) eqn:Hr;
          [by apply Hnot in Hr | done].
      * by intros [= <-].
    + by intros ->.
  - intros T f. unfold Backend.acknowledge, Backend.request. split.
    + destruct f as [msg|[status errorBody|[body|]]]; try done; [|by eauto].
      intros H. exfalso.
      destruct (Backend.handleResponse (Backend.NotOk status errorBody)) eqn:Hr;
        [by apply Hnot in Hr | done].
    + by intros (body & ->).
Qed.

(** X23. The two demo tests of [ConnectionTest] cannot fail: each
    overwrites the stored token with a demo token, so whatever was stored
    and whatever the backend would answer, [testDemoLogin] returns the
    demo chat of [createChat] and [testMultiMessage] a demo batch with
    [success] and [isMultiMessage] set; the demo token stays in the
    store. *)
Theorem demo_tests_always_succeed (localStorage : gmap string string) (now : Z)
    (random : Q) (clock : Types.clock) (f : Backend.fetched Chat)
    (backend : outcome multi_response) :
  (Testers.testDemoLogin localStorage now clock f).2
  = Backend.Returns (Backend.demoChat "priya" clock)
  /\ (exists r, (Testers.testMultiMessage localStorage now random clock backend).2 = Ok r
                /\ success r = true /\ data_isMultiMessage (data r) = true)
  /\ (Testers.testDemoLogin localStorage now clock f).1 !! "authToken"
     = Some ("demo-token-" +:+ pretty now)
  /\ (Testers.testMultiMessage localStorage now random clock backend).1 !! "authToken"
     = Some ("demo-token-" +:+ pretty now).
Proof.
  unfold Testers.testDemoLogin, Testers.testMultiMessage.
  cbn [fst snd]. rewrite !lookup_insert_eq.
  unfold Backend.createChat, sendMessageMulti.
  rewrite startsWith_app, demo_token_served.
  split; [done|]. split; [by eexists|]. done.
Qed.

(** X24. The token of [testEndpoint]: a non-empty stored token is kept
    and the store is left as it was; otherwise a demo token is stored,
    which puts the whole gateway in demo mode.  In both cases a token is
    stored afterwards, and a second test at any later time leaves the
    store as the first one left it. *)
Theorem endpoint_test_stores_token (localStorage : gmap string string) (now later : Z) :
  (forall c token, localStorage !! "authToken" = Some (String c token) ->
     Testers.testEndpoint_store localStorage now = localStorage)
  /\ (localStorage !! "authToken" = None
      \/ localStorage !! "authToken" = Some EmptyString ->
      Testers.testEndpoint_store localStorage now !! "authToken"
      = Some ("demo-token-" +:+ pretty now)
      /\ forall chatId,
           demo_mode (Testers.testEndpoint_store localStorage now !! "authToken") chatId
           = true)
  /\ (exists c token,
        Testers.testEndpoint_store localStorage now !! "authToken" = Some (String c token))
  /\ Testers.testEndpoint_store (Testers.testEndpoint_store localStorage now) later
     = Testers.testEndpoint_store localStorage now.
Proof.
  assert (Hkept : forall ls c token t, ls !! "authToken" = Some (String c token) ->
                    Testers.testEndpoint_store ls t = ls).
  { intros ls c token t H. unfold Testers.testEndpoint_store, Testers.endpointToken.
    rewrite H. by apply insert_id. }
  assert (Hstored : exists c token,
            Testers.testEndpoint_store localStorage now !! "authToken"
            = Some (String c token)).
  { unfold Testers.testEndpoint_store, Testers.endpointToken. rewrite lookup_insert_eq.
    destruct (localStorage !! "authToken") as [[|c token]|]; by do 2 eexists. }
  split; [intros c token H; by apply (Hkept _ c token)|]. split; [|split; [exact Hstored|]].
  - intros Hnone.
    assert (Htoken : Testers.testEndpoint_store localStorage now !! "authToken"
                     = Some ("demo-token-" +:+ pretty now)).
    { unfold Testers.testEndpoint_store, Testers.endpointToken. rewrite lookup_insert_eq.
      by destruct Hnone as [-> | ->]. }
    split; [exact Htoken|]. intros chatId. rewrite Htoken. apply demo_token_served.
  - destruct Hstored as (c & token & H). by apply (Hkept _ c token).
Qed.

(* ===================================================================== *)
(** ** More on the Demo Responder *)
(* ===================================================================== *)



Lemma last_character_inj (a : string) : forall (b : string) (c1 c2 : ascii),
  a +:+ String "-" (String c1 EmptyString) = b +:+ String "-" (String c2 EmptyString) ->
  c1 = c2.
Proof.
  induction a as [|x a IH]; intros [|y b] c1 c2 H; simpl in H.
  - by injection H.
  - injection H as _ H. destruct b as [|y' [|y'' b]]; simpl in H; discriminate H.
  - injection H as _ H. destruct a as [|x' [|x'' a]]; simpl in H; discriminate H.
  - injection H as _ H. by eapply IH.
Qed.

Lemma append_inj_prefix (p a b : string) : p +:+ a = p +:+ b -> a = b.
Proof. induction p as [|c p IH]; simpl; [done|]. intros [= H]. by apply IH. Qed.

Lemma demo_index_digit (i : nat) :
  (i < 4)%nat -> pretty i = String (ascii_of_nat (48 + i)) EmptyString.
Proof.
  intros Hi. do 4 (destruct i as [|i]; [vm_compute; reflexivity|]). lia.
Qed.

(** X26. The messages of one demo batch have pairwise distinct ids,
    also when the clock does not advance during the call: they are told
    apart by the index at the end of the id. *)
Theorem demo_batch_ids_distinct chatId agentId (random : Q) (now : clock) (i j : nat)
    (mi mj : Message) :
  drawn random ->
  data_messages (data (demoMulti chatId agentId random now)) !! i = Some mi ->
  data_messages (data (demoMulti chatId agentId random now)) !! j = Some mj ->
  i <> j ->
  id mi <> id mj.
Proof.
  intros [H0 H1] Hi Hj Hij Hid. apply Hij.
  assert (Hsmall : forall k r, take (numMessages random) demoResponses !! k = Some r ->
                               (k < 4)%nat).
  { intros k r Hk. apply lookup_lt_Some in Hk. rewrite length_take in Hk.
    destruct (numMessages_range random H0 H1) as [Hn | [Hn | Hn]]; rewrite Hn in Hk;
      simpl in Hk; lia. }
  apply demoMulti_lookup in Hi as (ri & Hi & ->).
  apply demoMulti_lookup in Hj as (rj & Hj & ->).
  apply Hsmall in Hi, Hj. unfold demoMessage in Hid. cbn [id] in Hid.
  rewrite (demo_index_digit i Hi), (demo_index_digit j Hj) in Hid.
  apply append_inj_prefix in Hid.
  apply last_character_inj in Hid.
  apply (f_equal nat_of_ascii) in Hid.
  rewrite !nat_ascii_embedding in Hid by lia. lia.
Qed.

Lemma demo_batch_ids_distinct_witness :
  exists mi mj,
    data_messages (data (demoMulti "demo-chat-1" "priya" (1 # 2) (fun _ => 0))) !! 0%nat
    = Some mi
    /\ data_messages (data (demoMulti "demo-chat-1" "priya" (1 # 2) (fun _ => 0))) !! 1%nat
       = Some mj
    /\ id mi <> id mj.
Proof.
  do 2 eexists. split; [reflexivity|]. split; [reflexivity|].
  apply (demo_batch_ids_distinct "demo-chat-1" "priya" (1 # 2) (fun _ => 0) 0 1);
    [split; by compute | reflexivity | reflexivity | lia].
Defined.
